(** * Transcription backend selector and subprocess bridge

    A shallow embedding of [transcriptionService.js] (class
    [TranscriptionService]) and of the Python bridge it drives (class
    [PythonTranscriptionService]), with the properties of the two classes
    that the component contract talks about.

    Conventions of the embedding:
    - a JavaScript value is a [JsVal]; object literals are association
      lists in source order; the results returned by the three strategies
      are such objects, with exactly the keys the source writes;
    - a JavaScript Number is an exact rational ([Q]): IEEE rounding is not
      modelled, and [NaN] never reaches a returned value in the modelled
      paths;
    - a JavaScript string is a [string], one [ascii] per code unit (so the
      code units are those below 256);
    - everything the code asks of its environment (clock, random numbers,
      the file system's verdicts, the child process, the remote API) is an
      explicit argument, and the files on disk and the console are threaded
      through as a [State];
    - the state a call returns is the state at the moment its promise
      settles; what a listener of the child writes after that moment is
      given apart, by [python_afterwards]. *)

From Stdlib Require Import ZArith QArith Qminmax Qround Lqa String Ascii List DecimalString.
From Stdlib Require DecimalZ.
From stdpp Require Import gmap strings.
Import ListNotations.
Open Scope string_scope.

#[local] Set Warnings "-register-all,-clear-no-such-hyp".

(** ** JavaScript values and errors *)

Inductive JsVal : Type :=
| JUndefined
| JNull
| JBool (b : bool)
| JNum (q : Q)
| JStr (s : string)
| JArr (elems : list JsVal)
| JObj (props : list (string * JsVal)).

(** A thrown value: [new Error(msg)], or an error of the runtime. *)
Record JsError : Type := mkError { name : string; message : string }.

Definition Error (msg : string) : JsError := mkError "Error" msg.
Definition TypeError (msg : string) : JsError := mkError "TypeError" msg.

(** Synchronous evaluation: a value, or an exception. *)
Inductive Result (A : Type) : Type :=
| Ok (a : A)
| Throw (e : JsError).
Arguments Ok {A} a.
Arguments Throw {A} e.

Definition bind {A B : Type} (r : Result A) (k : A -> Result B) : Result B :=
  match r with
  | Ok a => k a
  | Throw e => Throw e
  end.

Notation "'let?' x ':=' r 'in' k" := (bind r (fun x => k))
  (at level 10, x name, r at level 100, k at level 200).

(** ToBoolean. *)
Definition truthy (v : JsVal) : bool :=
  match v with
  | JUndefined | JNull => false
  | JBool b => b
  | JNum q => negb (Qeq_bool q 0)
  | JStr s => negb (String.eqb s EmptyString)
  | JArr _ | JObj _ => true
  end.

(** [a || b]. *)
Definition js_or (a b : JsVal) : JsVal := if truthy a then a else b.

Fixpoint lookup_prop (k : string) (props : list (string * JsVal)) : JsVal :=
  match props with
  | [] => JUndefined
  | (k', v) :: rest => if String.eqb k k' then v else lookup_prop k rest
  end.

Definition num_of_nat (n : nat) : Q := inject_Z (Z.of_nat n).

(** [v.k] for a data property [k]: own properties of objects, [length] of
    strings and arrays, [undefined] otherwise; reading from [null] or
    [undefined] throws. *)
Definition get (v : JsVal) (k : string) : Result JsVal :=
  match v with
  | JUndefined =>
      Throw (TypeError ("Cannot read properties of undefined (reading '" ++ k ++ "')"))
  | JNull =>
      Throw (TypeError ("Cannot read properties of null (reading '" ++ k ++ "')"))
  | JObj props => Ok (lookup_prop k props)
  | JStr s => Ok (if String.eqb k "length" then JNum (num_of_nat (String.length s)) else JUndefined)
  | JArr l => Ok (if String.eqb k "length" then JNum (num_of_nat (List.length l)) else JUndefined)
  | JBool _ | JNum _ => Ok JUndefined
  end.

Definition keys (v : JsVal) : list string :=
  match v with
  | JObj props => map fst props
  | _ => []
  end.

(** The two fields by which a result tells its origin. *)
Definition tags (v : JsVal) : Result JsVal * Result JsVal :=
  (get v "pipeline", get v "mock").

(** [s.includes(sub)]. *)
Fixpoint includes (s sub : string) : bool :=
  String.prefix sub s ||
  match s with
  | EmptyString => false
  | String _ rest => includes rest sub
  end.

(** Decimal rendering of an integer, as a template literal does it. *)
Definition show_Z (z : Z) : string := NilEmpty.string_of_int (Z.to_int z).

(** ** The remote strategy's confidence heuristic *)

(** The character class [[.,!?;]]. *)
Definition is_punctuation (c : ascii) : bool :=
  (Ascii.eqb c "." || Ascii.eqb c "," || Ascii.eqb c "!" ||
   Ascii.eqb c "?" || Ascii.eqb c ";")%bool.

(** [text.match(/[.,!?;]/g)]: the matches, or [null] when there is none. *)
Definition match_punctuation (text : string) : option (list ascii) :=
  match List.filter is_punctuation (list_ascii_of_string text) with
  | [] => None
  | ms => Some ms
  end.

(** [calculateConfidence(text)]. A truthy argument that is not a string
    returns 0 when its [length] is 0, and otherwise has no [match] method,
    so that the call throws before anything is returned. *)
Definition calculateConfidence (text : JsVal) : Result Q :=
  if negb (truthy text) then Ok 0%Q
  else
    match text with
    | JStr s =>
        if Nat.eqb (String.length s) 0 then Ok 0%Q
        else
          let confidence := 0.5%Q in
          let confidence := (confidence + Qmin (num_of_nat (String.length s) / 100) 0.3)%Q in
          let punctuationCount :=
            List.length (match match_punctuation s with Some ms => ms | None => [] end) in
          let confidence := (confidence + Qmin (num_of_nat punctuationCount * 0.1) 0.2)%Q in
          Ok (Qmin confidence 1.0)
    | JArr [] => Ok 0%Q
    | JObj props =>
        match lookup_prop "length" props with
        | JNum q => if Qeq_bool q 0 then Ok 0%Q
                    else Throw (TypeError "text.match is not a function")
        | _ => Throw (TypeError "text.match is not a function")
        end
    | _ => Throw (TypeError "text.match is not a function")
    end.

(** The number of punctuation marks of a text, as the contract counts
    them: one for each character among [. , ! ? ;]. *)
Fixpoint punctuationMarkCount (text : string) : nat :=
  match text with
  | EmptyString => 0
  | String c rest => (if is_punctuation c then 1 else 0) + punctuationMarkCount rest
  end.

(** ** Files on disk and the diagnostic stream *)

Inductive Level : Type := LWarn | LError.

(** [files]: the paths that exist; [console]: what [console.warn] and
    [console.error] have written, oldest first, one entry per call with the
    arguments as printed (an error object by its message). *)
Record State : Type := mkState {
  files : gset string;
  console : list (Level * list string)
}.

Definition console_warn (args : list string) (st : State) : State :=
  mkState (files st) (console st ++ [(LWarn, args)])%list.

Definition console_error (args : list string) (st : State) : State :=
  mkState (files st) (console st ++ [(LError, args)])%list.

Definition create_file (p : string) (st : State) : State :=
  mkState ({[ p ]} ∪ files st) (console st).

Definition remove_file (p : string) (st : State) : State :=
  mkState (files st ∖ {[ p ]}) (console st).

(** [path.join(dir, name)] for a normalised [dir]. *)
Definition path_join (dir name : string) : string := dir ++ "/" ++ name.

(** ** Requests and outcomes *)

(** The audio argument. Only the paths of files are tracked, so of a buffer
    only its length matters. *)
Inductive Audio : Type :=
| ANull
| ABuffer (bytes : list Byte.byte).

Record Options : Type := mkOptions {
  language : option string;
  outputFormat : option string;
  responseFormat : option string;
  temperature : option Q
}.

(** How the promise returned by an [async] method ends: resolved, rejected,
    never settled because a callback threw outside of it, or pending for
    ever because the event it waits for never comes. *)
Inductive Outcome : Type :=
| Resolved (v : JsVal)
| Rejected (e : JsError)
| Unsettled (e : JsError)
| Pending.

(** The same for a promise of something else than a result object. *)
Inductive Awaited (A : Type) : Type :=
| Settled (r : Result A)
| NeverSettles.
Arguments Settled {A} r.
Arguments NeverSettles {A}.

(** [const a = await p; ...] where the rest is synchronous. *)
Definition await {A B : Type} (p : Awaited A) (k : A -> Result B) : Awaited B :=
  match p with
  | Settled r => Settled (bind r k)
  | NeverSettles => NeverSettles
  end.

(** The two listeners the bridge gives a child. *)
Inductive Listener : Type := OnError | OnClose.

Definition Listener_eqb (a b : Listener) : bool :=
  match a, b with
  | OnError, OnError | OnClose, OnClose => true
  | _, _ => false
  end.

(** What a spawned child does.
    - [SpawnThrows e]: [spawn] itself throws.
    - [ProcError msg code first raced]: the child could not be started.
      The runtime then emits ['error'], with an error of message [msg],
      and in the same turn ['close'], with the negative error number
      [code] and no signal; nothing was read from the child. A listener
      of each event being registered, both run: each starts its own
      cleanup and goes on when that is over. [first] is the listener that
      goes on first, and so the one that settles the promise. When both
      have looked for the file before either unlink was carried out, the
      later unlink finds the file gone: [raced] names the listener whose
      unlink that was, with the message of the error it is called back
      with; it is [None] when the second cleanup found the directory as
      the first one left it.
    - [ProcClose code stdout stderr]: the child ends and ['close'] is
      emitted with its exit code ([None] when it was killed by a signal)
      and the collected output.
    - [ProcHangs]: the child was started and never ends, so that neither
      event is ever emitted; it is spawned without a timeout. *)
Inductive ProcOutcome : Type :=
| SpawnThrows (e : JsError)
| ProcError (msg : string) (code : Z) (first : Listener) (raced : option (Listener * string))
| ProcClose (code : option Z) (stdout stderr : string)
| ProcHangs.

(** A write that failed. [fs.writeFile] and [fs.writeFileSync] open the
    file for writing, which creates it, and then write the data: when it is
    the write that fails (a full disk, say) the file is there afterwards,
    and when it is the open nothing has changed. *)
Record WriteFailure (E : Type) : Type := mkWriteFailure {
  write_error : E;
  file_created : bool
}.
Arguments mkWriteFailure {E} _ _.
Arguments write_error {E} _.
Arguments file_created {E} _.

(** The environment of one run of the subprocess strategy. *)
Record SubprocessEnv : Type := mkSubprocessEnv {
  now : Z;                                   (* Date.now() *)
  random_suffix : string;                    (* Math.random().toString(36).substr(2, 9) *)
  writeFile_error : option (WriteFailure string);  (* the error fs.writeFile calls back with *)
  spawn : string -> list string -> ProcOutcome;
  unlink_error : option string               (* the error fs.unlink calls back with *)
}.

Record TranscriptionRequest : Type := mkRequest {
  req_file : string;
  req_model : string;
  req_language : string;
  req_response_format : string;
  req_temperature : Q
}.

(** The environment of one run of the remote strategy. The client gives a
    request up after a timeout of its own, so that [create] settles. *)
Record RemoteEnv : Type := mkRemoteEnv {
  remote_now : Z;                            (* Date.now() *)
  writeFileSync_error : option (WriteFailure JsError);  (* thrown by fs.writeFileSync *)
  create : TranscriptionRequest -> Result JsVal;  (* openai.audio.transcriptions.create *)
  unlinkSync_error : option JsError          (* thrown by fs.unlinkSync *)
}.

(** The three successive results of [Math.random()] in the mock. *)
Record MockEnv : Type := mkMockEnv {
  random_delay : Q;
  random_index : Q;
  random_confidence : Q
}.

Record CallEnv : Type := mkCallEnv {
  sub_env : SubprocessEnv;
  remote_env : RemoteEnv;
  mock_env : MockEnv
}.

(** ** String helpers of the runtime *)

(** White space and line terminators, as far as one code unit of Latin-1
    reaches. *)
Definition is_whitespace (c : ascii) : bool :=
  let n := nat_of_ascii c in
  (Nat.eqb n 9 || Nat.eqb n 10 || Nat.eqb n 11 || Nat.eqb n 12 ||
   Nat.eqb n 13 || Nat.eqb n 32 || Nat.eqb n 160)%bool.

Fixpoint trim_start (s : string) : string :=
  match s with
  | EmptyString => EmptyString
  | String c rest => if is_whitespace c then trim_start rest else s
  end.

Definition reverse (s : string) : string :=
  string_of_list_ascii (List.rev (list_ascii_of_string s)).

(** [s.trim()]. *)
Definition trim (s : string) : string :=
  reverse (trim_start (reverse (trim_start s))).

Definition truthy_string (o : option string) : bool :=
  match o with
  | Some s => negb (String.eqb s EmptyString)
  | None => false
  end.

Definition double_quote : string := String (ascii_of_nat 34) EmptyString.

(** What [fs.writeFile] and [fs.writeFileSync] throw when handed [null]. *)
Definition invalid_data_error : JsError :=
  TypeError ("The " ++ double_quote ++ "data" ++ double_quote
             ++ " argument must be of type string or an instance of Buffer, "
             ++ "TypedArray, or DataView. Received null").

(** What the model takes from the runtime as it comes: [JSON.parse], which
    returns the parsed value or throws a [SyntaxError]; the rendering of a
    Number as a string; and the directory of the two modules,
    [__dirname]. *)
Class Runtime : Type := mkRuntime {
  JSON_parse : string -> Result JsVal;
  Number_toString : Q -> string;
  dirname : string
}.

Section Platform.

Context {rt : Runtime}.

Fixpoint ToString (v : JsVal) : string :=
  match v with
  | JUndefined => "undefined"
  | JNull => "null"
  | JBool b => if b then "true" else "false"
  | JNum q => Number_toString q
  | JStr s => s
  | JArr l =>
      String.concat ","
        (map (fun x => match x with
                       | JUndefined | JNull => EmptyString
                       | _ => ToString x
                       end) l)
  | JObj _ => "[object Object]"
  end.

(** [l.join(sep)]: [undefined] and [null] elements render as empty. *)
Definition array_join (sep : string) (l : list JsVal) : string :=
  String.concat sep
    (map (fun x => match x with
                   | JUndefined | JNull => EmptyString
                   | _ => ToString x
                   end) l).

(** [l.map(w => w.word)]. *)
Fixpoint map_word (l : list JsVal) : Result (list JsVal) :=
  match l with
  | [] => Ok []
  | w :: rest =>
      let? word := get w "word" in
      let? words := map_word rest in
      Ok (word :: words)
  end.

(** ** The subprocess strategy: [PythonTranscriptionService] *)

Record PythonTranscriptionService : Type := mkPythonService {
  pythonScript : string;
  tempDir : string;
  hfToken : option string
}.

(** The constructor; it also creates [tempDir], and directories are not
    tracked. *)
Definition newPythonTranscriptionService (HF_TOKEN : option string)
  : PythonTranscriptionService :=
  mkPythonService (path_join dirname "transcription_pipeline.py")
                  (path_join dirname "temp_audio_transa")
                  HF_TOKEN.

(** [saveAudioBuffer(audioBuffer)]. [fs.writeFile] refuses data that is
    not a buffer or a string by throwing before it opens anything, which
    rejects the promise with that error as it is. *)
Definition saveAudioBuffer (this : PythonTranscriptionService) (env : SubprocessEnv)
    (audioBuffer : Audio) (st : State) : Result string * State :=
  let tempFileName := "audio_" ++ show_Z (now env) ++ "_" ++ random_suffix env ++ ".wav" in
  let tempFilePath := path_join (tempDir this) tempFileName in
  match audioBuffer with
  | ANull => (Throw invalid_data_error, st)
  | ABuffer _ =>
      match writeFile_error env with
      | Some failure =>
          (Throw (Error ("Failed to save audio buffer: " ++ write_error failure)),
           if file_created failure then create_file tempFilePath st else st)
      | None => (Ok tempFilePath, create_file tempFilePath st)
      end
  end.

(** [cleanupTempFile(filePath)]: never rejects; a failed unlink is warned
    about. *)
Definition cleanupTempFile (env : SubprocessEnv) (filePath : string) (st : State) : State :=
  if decide (filePath ∈ files st) then
    match unlink_error env with
    | Some msg => console_warn ["Failed to cleanup temp file " ++ filePath ++ ":"; msg] st
    | None => remove_file filePath st
    end
  else st.

(** [parsePythonOutput(output, outputFormat = 'json')]. *)
Definition parsePythonOutput (output : string) (outputFormat : option string)
    (st : State) : Result JsVal * State :=
  let outputFormat := match outputFormat with Some f => f | None => "json" end in
  if String.eqb outputFormat "markdown" then (Ok (JStr (trim output)), st)
  else
    match JSON_parse output with
    | Ok v => (Ok v, st)
    | Throw error =>
        let st := console_error ["Failed to parse Python output:"; message error] st in
        let st := console_error ["Raw output:"; output] st in
        (Throw (Error ("Invalid output from Python script: " ++ message error)), st)
    end.

(** [result.markdown || result.segments?.map(w => w.word).join(' ') || ''] *)
Definition result_text (result : JsVal) : Result JsVal :=
  let? markdown := get result "markdown" in
  if truthy markdown then Ok markdown
  else
    let? segments := get result "segments" in
    let? joined :=
      match segments with
      | JUndefined | JNull => Ok JUndefined
      | JArr l => let? words := map_word l in Ok (JStr (array_join " " words))
      | _ => Throw (TypeError "result.segments?.map is not a function")
      end in
    Ok (js_or joined (JStr EmptyString)).

(** The object resolved with when [outputFormat] is ['markdown']. *)
Definition markdown_result (result : JsVal) : JsVal :=
  JObj [ ("text", result);
         ("language", JStr "sv");
         ("confidence", JNum 0.9);
         ("speakers", JArr []);
         ("segments", JArr []);
         ("pipeline", JStr "python-local") ].

(** The object resolved with otherwise. *)
Definition structured_result (result : JsVal) : Result JsVal :=
  let? text := result_text result in
  let? speakers := get result "speakers" in
  let? segments := get result "segments" in
  let? duration := get result "duration" in
  let? total_words := get result "total_words" in
  Ok (JObj [ ("text", text);
             ("language", JStr "sv");
             ("confidence", JNum 0.9);
             ("speakers", js_or speakers (JArr []));
             ("segments", js_or segments (JArr []));
             ("duration", js_or duration (JNum 0));
             ("totalWords", js_or total_words (JNum 0));
             ("pipeline", JStr "python-local");
             ("raw", result) ]).

Definition show_code (code : option Z) : string :=
  match code with
  | Some z => show_Z z
  | None => "null"
  end.

Definition is_zero (code : option Z) : bool :=
  match code with
  | Some z => Z.eqb z 0
  | None => false
  end.

(** The arguments the script is started with. *)
Definition python_args (this : PythonTranscriptionService) (tempFilePath : string)
    (options : Options) : list string :=
  let args := [pythonScript this; tempFilePath] in
  let args := if truthy_string (hfToken this)
              then (args ++ ["--hf-token"; default EmptyString (hfToken this)])%list
              else args in
  let args := if truthy_string (outputFormat options)
              then (args ++ ["--output"; default EmptyString (outputFormat options)])%list
              else args in
  args.

(** What the ['close'] listener does once its cleanup is over. *)
Definition on_close (options : Options) (code : option Z) (stdout stderr : string)
    (st : State) : Outcome * State :=
  if negb (is_zero code) then
    let st := console_error ["Python script error:"; stderr] st in
    (Rejected (Error ("Python script failed with code " ++ show_code code
                      ++ ": " ++ stderr)), st)
  else
    match parsePythonOutput stdout (outputFormat options) st with
    | (Throw error, st) => (Rejected error, st)
    | (Ok result, st) =>
        if match outputFormat options with
           | Some f => String.eqb f "markdown"
           | None => false
           end
        then (Resolved (markdown_result result), st)
        else
          match structured_result result with
          | Ok v => (Resolved v, st)
          | Throw error => (Rejected error, st)
          end
    end.

(** When the child could not be started, two cleanups of the same file are
    under way at once. What they leave on disk: the file is removed unless
    the unlink fails for a reason of its own. *)
Definition unlinked (env : SubprocessEnv) (filePath : string) (st : State) : State :=
  if decide (filePath ∈ files st) then
    match unlink_error env with
    | Some _ => st
    | None => remove_file filePath st
    end
  else st.

(** What the cleanup started by listener [l] warns about, if anything: the
    error of its unlink, which is the file system's own when there is one,
    and otherwise that of finding the file gone when this unlink was the
    later of two. *)
Definition cleanup_warning (env : SubprocessEnv) (filePath : string)
    (raced : option (Listener * string)) (l : Listener) (st : State)
  : list (Level * list string) :=
  if decide (filePath ∈ files st) then
    match unlink_error env, raced with
    | Some msg, _ => [(LWarn, ["Failed to cleanup temp file " ++ filePath ++ ":"; msg])]
    | None, Some (l', gone) =>
        if Listener_eqb l l'
        then [(LWarn, ["Failed to cleanup temp file " ++ filePath ++ ":"; gone])]
        else []
    | None, None => []
    end
  else [].

Definition console_log (entries : list (Level * list string)) (st : State) : State :=
  mkState (files st) (console st ++ entries)%list.

(** [transcribeAudio(audioBuffer, options)] of the Python bridge. *)
Definition python_transcribeAudio (this : PythonTranscriptionService) (env : SubprocessEnv)
    (audioBuffer : Audio) (options : Options) (st : State) : Outcome * State :=
  match saveAudioBuffer this env audioBuffer st with
  | (Throw error, st) => (Rejected error, st)
  | (Ok tempFilePath, st) =>
      match spawn env "python3" (python_args this tempFilePath options) with
      | SpawnThrows error => (Rejected error, st)
      | ProcError msg code first raced =>
          let warning l := cleanup_warning env tempFilePath raced l st in
          let st := unlinked env tempFilePath st in
          match first with
          | OnError =>
              let st := console_log (warning OnError) st in
              (Rejected (Error ("Failed to start Python process: " ++ msg)), st)
          | OnClose =>
              let st := console_log (warning OnClose) st in
              on_close options (Some code) EmptyString EmptyString st
          end
      | ProcClose code stdout stderr =>
          let st := cleanupTempFile env tempFilePath st in
          on_close options code stdout stderr st
      | ProcHangs => (Pending, st)
      end
  end.

(** What is written to the console after the promise of [transcribeAudio]
    has settled: when the child could not be started, the listener that
    was not [first] still finishes its cleanup and goes on, and its calls
    of [resolve] and [reject] do nothing any more. Where these entries
    fall among those the caller writes in the meantime is not
    determined. *)
Definition python_afterwards (this : PythonTranscriptionService) (env : SubprocessEnv)
    (audioBuffer : Audio) (options : Options) (st : State) : list (Level * list string) :=
  match saveAudioBuffer this env audioBuffer st with
  | (Throw _, _) => []
  | (Ok tempFilePath, st) =>
      match spawn env "python3" (python_args this tempFilePath options) with
      | ProcError msg code first raced =>
          let warning l := cleanup_warning env tempFilePath raced l st in
          match first with
          | OnError =>
              console (snd (on_close options (Some code) EmptyString EmptyString
                              (mkState (files (unlinked env tempFilePath st))
                                       (warning OnClose))))
          | OnClose => warning OnError
          end
      | _ => []
      end
  end.

(** [isAvailable()]: the capability probe. Its listeners are synchronous:
    when the child could not be started the ['error'] listener, called
    first, resolves with [false]. *)
Definition isAvailable (env : SubprocessEnv) : Awaited bool :=
  match spawn env "python3"
          ["-c"; "import whisper_timestamped, pyannote.audio; print("
                   ++ double_quote ++ "OK" ++ double_quote ++ ")"] with
  | SpawnThrows error => Settled (Throw error)
  | ProcError _ _ _ _ => Settled (Ok false)
  | ProcClose code _ stderr =>
      Settled (Ok (is_zero code && negb (includes stderr "ModuleNotFoundError")))
  | ProcHangs => NeverSettles
  end.

(** [getStatus()]. *)
Definition getStatus (this : PythonTranscriptionService) (env : SubprocessEnv)
  : Awaited JsVal :=
  await (isAvailable env) (fun available =>
  Ok (JObj [ ("available", JBool available);
             ("pythonScript", JStr (pythonScript this));
             ("tempDir", JStr (tempDir this));
             ("hfTokenConfigured", JBool (truthy_string (hfToken this)));
             ("service", JStr "python-local-transcription") ])).

(** ** The selector: [TranscriptionService] *)

Record ProcessEnv : Type := mkProcessEnv {
  OPENAI_API_KEY : option string;
  HF_TOKEN : option string
}.

(** [useOpenAI] also tells whether the client [this.openai] exists: the
    constructor sets the two together. *)
Record TranscriptionService : Type := mkService {
  pythonService : PythonTranscriptionService;
  useOpenAI : bool;
  preferredService : string
}.

Definition newTranscriptionService (penv : ProcessEnv) : TranscriptionService :=
  mkService (newPythonTranscriptionService (HF_TOKEN penv))
            (truthy_string (OPENAI_API_KEY penv))
            "python".

(** The [try] block of [transcribeWithOpenAI]. *)
Definition openai_attempt (this : TranscriptionService) (env : RemoteEnv)
    (audioBuffer : Audio) (options : Options) (st : State) : Result JsVal * State :=
  let language := default "en" (language options) in
  let responseFormat := default "json" (responseFormat options) in
  let temperature := default 0%Q (temperature options) in
  let tempFileName := "temp_audio_" ++ show_Z (remote_now env) ++ ".wav" in
  let tempFilePath := path_join (path_join dirname "temp") tempFileName in
  match match audioBuffer with
        | ANull => Some (mkWriteFailure invalid_data_error false)
        | ABuffer _ => writeFileSync_error env
        end with
  | Some failure =>
      (Throw (write_error failure),
       if file_created failure then create_file tempFilePath st else st)
  | None =>
      let st := create_file tempFilePath st in
      if negb (useOpenAI this) then
        (Throw (TypeError "Cannot read properties of undefined (reading 'audio')"), st)
      else
        match create env (mkRequest tempFilePath "whisper-1" language responseFormat
                                    temperature) with
        | Throw error => (Throw error, st)
        | Ok response =>
            match unlinkSync_error env with
            | Some error => (Throw error, st)
            | None =>
                let st := remove_file tempFilePath st in
                (let? text := get response "text" in
                 let? response_language := get response "language" in
                 let? duration := get response "duration" in
                 let? segments := get response "segments" in
                 let? confidence := calculateConfidence text in
                 Ok (JObj [ ("text", text);
                            ("language", js_or response_language (JStr language));
                            ("duration", js_or duration JNull);
                            ("segments", js_or segments JNull);
                            ("confidence", JNum confidence) ]),
                 st)
            end
        end
  end.

(** [transcribeWithOpenAI(audioBuffer, options)]: the [catch] logs and
    throws the error again. *)
Definition transcribeWithOpenAI (this : TranscriptionService) (env : RemoteEnv)
    (audioBuffer : Audio) (options : Options) (st : State) : Outcome * State :=
  match openai_attempt this env audioBuffer options st with
  | (Ok v, st) => (Resolved v, st)
  | (Throw error, st) =>
      (Rejected error, console_error ["OpenAI transcription error:"; message error] st)
  end.

Definition mockResponses : list string :=
  [ "Hello, this is a test transcription of the audio.";
    "The audio transcription feature is working correctly.";
    "This is sample text that would normally come from speech recognition.";
    "Audio processing and transcription is now active.";
    "Testing the real-time transcription capabilities." ].

(** [arr[Math.floor(x)]]. *)
Definition at_floor (arr : list string) (x : Q) : JsVal :=
  let i := Qfloor x in
  if (i <? 0)%Z then JUndefined
  else match nth_error arr (Z.to_nat i) with
       | Some s => JStr s
       | None => JUndefined
       end.

(** [getMockTranscription(audioBuffer, options)]: the delay handed to
    [setTimeout], and what the timer's callback does. Reading [length] of
    [null] throws inside that callback, where nothing catches it and the
    promise is never settled. The delay is the exact sum; the running code
    rounds it to the nearest Number, which for a draw next to 1 is 3000
    itself. *)
Definition getMockTranscription (env : MockEnv) (audioBuffer : Audio) (options : Options)
  : Q * Outcome :=
  let randomDelay := (random_delay env * 2000 + 1000)%Q in
  (randomDelay,
   let randomResponse :=
     at_floor mockResponses (random_index env * num_of_nat (List.length mockResponses)) in
   match audioBuffer with
   | ANull => Unsettled (TypeError "Cannot read properties of null (reading 'length')")
   | ABuffer bytes =>
       Resolved (JObj [ ("text", randomResponse);
                        ("language", JStr (if truthy_string (language options)
                                           then default EmptyString (language options)
                                           else "en"));
                        ("duration", JNum (num_of_nat (List.length bytes) / 16000));
                        ("confidence", JNum (random_confidence env * 0.3 + 0.7));
                        ("mock", JBool true) ])
   end).

(** The outer [try] block of [transcribeAudio]. *)
Definition transcribeAudio_attempt (this : TranscriptionService) (env : CallEnv)
    (audioBuffer : Audio) (options : Options) (st : State) : Outcome * State :=
  if String.eqb (preferredService this) "python" then
    match python_transcribeAudio (pythonService this) (sub_env env) audioBuffer options st with
    | (Rejected pythonError, st) =>
        let st := console_warn ["⚠️ Python pipeline failed, falling back to OpenAI:";
                                message pythonError] st in
        if useOpenAI this then transcribeWithOpenAI this (remote_env env) audioBuffer options st
        else (Rejected pythonError, st)
    | (pythonResult, st) => (pythonResult, st)
    end
  else if useOpenAI this then transcribeWithOpenAI this (remote_env env) audioBuffer options st
  else (snd (getMockTranscription (mock_env env) audioBuffer options), st).

(** [transcribeAudio(audioBuffer, options)] of the selector: whatever the
    block throws is logged and wrapped. *)
Definition transcribeAudio (this : TranscriptionService) (env : CallEnv)
    (audioBuffer : Audio) (options : Options) (st : State) : Outcome * State :=
  match transcribeAudio_attempt this env audioBuffer options st with
  | (Rejected error, st) =>
      (Rejected (Error ("Transcription failed: " ++ message error)),
       console_error ["Transcription error:"; message error] st)
  | settled => settled
  end.

(** [isConfigured()], with the process environment as it is at the call. *)
Definition isConfigured (this : TranscriptionService) (penv : ProcessEnv)
    (env : SubprocessEnv) : Awaited bool :=
  await (isAvailable env) (fun pythonAvailable =>
  let openaiConfigured := useOpenAI this && truthy_string (OPENAI_API_KEY penv) in
  Ok (pythonAvailable || openaiConfigured)).

(** [getServiceStatus()]. *)
Definition getServiceStatus (this : TranscriptionService) (penv : ProcessEnv)
    (env : SubprocessEnv) : Awaited JsVal :=
  await (getStatus (pythonService this) env) (fun pythonStatus =>
  let openaiConfigured := useOpenAI this && truthy_string (OPENAI_API_KEY penv) in
  let? available := get pythonStatus "available" in
  Ok (JObj [ ("preferredService", JStr (preferredService this));
             ("pythonService", pythonStatus);
             ("openaiConfigured", JBool openaiConfigured);
             ("overallConfigured", js_or available (JBool openaiConfigured)) ])).

End Platform.

(** ** A sample run, for the closed examples below *)

(** A stand-in for [JSON.parse] that answers as Node 18 does on the
    documents the examples feed it: the empty object, [null], and an object
    cut short after its opening brace. *)
Definition sample_JSON_parse (s : string) : Result JsVal :=
  if String.eqb s "{}" then Ok (JObj [])
  else if String.eqb s "null" then Ok JNull
  else Throw (mkError "SyntaxError" "Unexpected end of JSON input").

(** Numbers are rendered by their integer part: no example prints one. *)
Definition sample_runtime : Runtime :=
  mkRuntime sample_JSON_parse (fun q => show_Z (Qfloor q)) "/srv/app".

Definition no_options : Options := mkOptions None None None None.

Definition empty_state : State := mkState ∅ [].

(** A child that exits with code 1 after writing [boom] to its standard
    error. *)
Definition boom_env : SubprocessEnv :=
  mkSubprocessEnv 1700000000000 "k3x9q2m1z" None
                  (fun _ _ => ProcClose (Some 1%Z) EmptyString "boom") None.

(** A remote API that cannot be reached. *)
Definition unreachable_api : RemoteEnv :=
  mkRemoteEnv 1700000000250 None (fun _ => Throw (Error "Connection error.")) None.

Definition sample_mock_env : MockEnv := mkMockEnv 0.5 0.5 0.5.

(** A service started without any credentials in the environment. *)
Definition bare_service : TranscriptionService :=
  newTranscriptionService (rt := sample_runtime) (mkProcessEnv None None).

(** A text of 200 characters, three of them punctuation marks. *)
Definition sample_text : string :=
  "So, it works. Really!" ++ string_of_list_ascii (repeat "a"%char 179).

Definition boom_call : CallEnv := mkCallEnv boom_env unreachable_api sample_mock_env.

(** A service started with an API key in the environment. *)
Definition keyed_service : TranscriptionService :=
  newTranscriptionService (rt := sample_runtime) (mkProcessEnv (Some "sk-test") None).

(** A remote API that answers with a short transcript. *)
Definition answering_api : RemoteEnv :=
  mkRemoteEnv 1700000000250 None
              (fun _ => Ok (JObj [("text", JStr "Hello there.")])) None.

Definition fallback_call : CallEnv := mkCallEnv boom_env answering_api sample_mock_env.

(** A child that exits cleanly after printing a line of markdown. *)
Definition markdown_env : SubprocessEnv :=
  mkSubprocessEnv 1700000000000 "k3x9q2m1z" None
                  (fun _ _ => ProcClose (Some 0%Z) "Hej." EmptyString) None.

Definition english_markdown : Options := mkOptions (Some "en") (Some "markdown") None None.

(** No interpreter on the machine: the child cannot be started. *)
Definition no_python_env : SubprocessEnv :=
  mkSubprocessEnv 1700000000000 "k3x9q2m1z" None
                  (fun _ _ => ProcError "spawn python3 ENOENT" (-2) OnError None) None.

Definition no_python_call : CallEnv :=
  mkCallEnv no_python_env unreachable_api sample_mock_env.


(** A parsed output whose [markdown] field is there and empty. *)
Definition empty_markdown_output : JsVal :=
  JObj [ ("markdown", JStr EmptyString);
         ("segments", JArr [ JObj [("word", JStr "hej")]; JObj [("word", JStr "du")] ]) ].

(** ** Batches *)

(** The loop of [transcribeBatch], which the two classes write alike: the
    buffers are taken in order, each call is awaited, and its result or the
    message of its error is pushed. [call i] is the [i]-th call; a call
    that never settles leaves the batch where that call left it. *)
Fixpoint batch_loop (call : nat -> Audio -> State -> Outcome * State) (i : nat)
    (audioBuffers : list Audio) (results : list JsVal) (st : State) : Outcome * State :=
  match audioBuffers with
  | [] => (Resolved (JArr results), st)
  | audioBuffer :: rest =>
      match call i audioBuffer st with
      | (Resolved result, st) =>
          batch_loop call (S i) rest
            (results ++ [JObj [("success", JBool true); ("result", result)]])%list st
      | (Rejected error, st) =>
          batch_loop call (S i) rest
            (results ++ [JObj [("success", JBool false); ("error", JStr (message error))]])%list
            st
      | (Unsettled e, st) => (Unsettled e, st)
      | (Pending, st) => (Pending, st)
      end
  end.

Section Batches.

Context {rt : Runtime}.

(** [transcribeBatch(audioBuffers, options)] of the Python bridge;
    [envs i] is the environment of the [i]-th call. *)
Definition python_transcribeBatch (this : PythonTranscriptionService)
    (envs : nat -> SubprocessEnv) (audioBuffers : list Audio) (options : Options)
    (st : State) : Outcome * State :=
  batch_loop (fun i audioBuffer => python_transcribeAudio this (envs i) audioBuffer options)
             0 audioBuffers [] st.

(** [transcribeBatch(audioBuffers, options)] of the selector. *)
Definition transcribeBatch (this : TranscriptionService) (envs : nat -> CallEnv)
    (audioBuffers : list Audio) (options : Options) (st : State) : Outcome * State :=
  batch_loop (fun i audioBuffer => transcribeAudio this (envs i) audioBuffer options)
             0 audioBuffers [] st.

(** The path the remote strategy writes the buffer to. *)
Definition remote_temp_path (env : RemoteEnv) : string :=
  path_join (path_join dirname "temp") ("temp_audio_" ++ show_Z (remote_now env) ++ ".wav").

End Batches.

(** The path the subprocess strategy writes the buffer to. *)
Definition python_temp_path (this : PythonTranscriptionService) (env : SubprocessEnv)
  : string :=
  path_join (tempDir this)
            ("audio_" ++ show_Z (now env) ++ "_" ++ random_suffix env ++ ".wav").

(** ** Speaker statistics *)

(** A segment as the pipeline emits it and as the test script builds it:
    [start] and [end] are Numbers, [word] is a string, and [speaker] is a
    string or missing. *)
Record Segment : Type := mkSegment {
  seg_start : Q;
  seg_end : Q;
  seg_word : string;
  seg_speaker : option string
}.

(** A Number that may be infinite: [Math.min()] and [Math.max()] of no
    arguments are [Infinity] and [-Infinity]. *)
Inductive Number : Type :=
| Finite (q : Q)
| PosInfinity
| NegInfinity
| NaN.

(** [Math.min(...xs)] and [Math.max(...xs)]. *)
Definition Math_min (xs : list Q) : Number :=
  match xs with
  | [] => PosInfinity
  | x :: rest => Finite (fold_left Qmin rest x)
  end.

Definition Math_max (xs : list Q) : Number :=
  match xs with
  | [] => NegInfinity
  | x :: rest => Finite (fold_left Qmax rest x)
  end.

(** [a - b]. *)
Definition number_sub (a b : Number) : Number :=
  match a, b with
  | NaN, _ | _, NaN => NaN
  | Finite x, Finite y => Finite (x - y)
  | Finite _, PosInfinity => NegInfinity
  | Finite _, NegInfinity => PosInfinity
  | PosInfinity, PosInfinity => NaN
  | PosInfinity, _ => PosInfinity
  | NegInfinity, NegInfinity => NaN
  | NegInfinity, _ => NegInfinity
  end.

(** [s && s !== 'Unknown'], for the speaker of a segment. *)
Definition named_speaker (s : option string) : bool :=
  match s with
  | Some name => negb (String.eqb name EmptyString) && negb (String.eqb name "Unknown")
  | None => false
  end.

(** [[...new Set(xs)]]: the distinct elements, each at its first
    occurrence. *)
Definition Set_add (seen : list string) (x : string) : list string :=
  if decide (x ∈ seen) then seen else (seen ++ [x])%list.

Definition spread_Set (xs : list string) : list string := fold_left Set_add xs [].

(** The names every object literal inherits from [Object.prototype]:
    reading one of them from [{}] yields the inherited value, not
    [undefined]. *)
Definition object_prototype_names : list string :=
  [ "constructor"; "__defineGetter__"; "__defineSetter__"; "hasOwnProperty";
    "__lookupGetter__"; "__lookupSetter__"; "isPrototypeOf"; "propertyIsEnumerable";
    "toString"; "valueOf"; "__proto__"; "toLocaleString" ].

(** One turn of the [forEach] that groups the segments by speaker. For an
    inherited name the test [!speakerSegments[segment.speaker]] finds the
    inherited value, nothing is initialised, and [push] is not there to be
    called. *)
Definition group_segment (acc : Result (gmap string (list Segment))) (segment : Segment)
  : Result (gmap string (list Segment)) :=
  let? speakerSegments := acc in
  match seg_speaker segment with
  | Some name =>
      if named_speaker (Some name) then
        if decide (name ∈ object_prototype_names) then
          Throw (TypeError "speakerSegments[segment.speaker].push is not a function")
        else
          Ok (<[name := (default [] (speakerSegments !! name) ++ [segment])%list]>
                speakerSegments)
      else Ok speakerSegments
  | None => Ok speakerSegments
  end.

Record SpeakerStat : Type := mkSpeakerStat {
  stat_speaker : string;
  stat_wordCount : nat;
  stat_startTime : Number;
  stat_endTime : Number;
  stat_duration : Number
}.

(** The statistics of one speaker, from [speakerSegments[speaker]]. *)
Definition speaker_stat (speakerSegments : gmap string (list Segment)) (speaker : string)
  : Result SpeakerStat :=
  match speakerSegments !! speaker with
  | None => Throw (TypeError "Cannot read properties of undefined (reading 'length')")
  | Some group =>
      Ok (mkSpeakerStat speaker
            (List.length group)
            (Math_min (map seg_start group))
            (Math_max (map seg_end group))
            (number_sub (Math_max (map seg_end group)) (Math_min (map seg_start group))))
  end.

Fixpoint map_speaker_stat (speakerSegments : gmap string (list Segment))
    (speakers : list string) : Result (list SpeakerStat) :=
  match speakers with
  | [] => Ok []
  | speaker :: rest =>
      let? stat := speaker_stat speakerSegments speaker in
      let? stats := map_speaker_stat speakerSegments rest in
      Ok (stat :: stats)
  end.

(** What [extractSpeakerInfo] returns; [speakerStats] is missing from the
    object returned for a result without a segments array. *)
Record SpeakerInfo : Type := mkSpeakerInfo {
  info_speakers : list string;
  info_speakerCount : nat;
  info_speakerSegments : gmap string (list Segment);
  info_speakerStats : option (list SpeakerStat)
}.

(** [extractSpeakerInfo(result)], from [result.segments]: [None] when that
    is missing or not an array. *)
Definition extractSpeakerInfo (segments : option (list Segment)) : Result SpeakerInfo :=
  match segments with
  | None => Ok (mkSpeakerInfo [] 0 ∅ None)
  | Some segments =>
      let speakers :=
        spread_Set
          (map (fun s => default EmptyString s)
               (List.filter named_speaker (map seg_speaker segments))) in
      let? speakerSegments := fold_left group_segment segments (Ok ∅) in
      let? speakerStats := map_speaker_stat speakerSegments speakers in
      Ok (mkSpeakerInfo speakers (List.length speakers) speakerSegments (Some speakerStats))
  end.

(** The segments of the test script's sample result. *)
Definition test_segments : list Segment :=
  [ mkSegment 0.0 1.5 "Det" (Some "A");
    mkSegment 1.5 2.0 "här" (Some "A");
    mkSegment 2.0 2.5 "är" (Some "A");
    mkSegment 2.5 3.5 "ett" (Some "B");
    mkSegment 3.5 4.5 "test" (Some "B") ].

(** A directory in which the name the subprocess strategy is about to use
    is already taken, next to an unrelated file. *)
Definition crowded_state : State :=
  mkState ({[ "/srv/app/temp_audio_transa/audio_1700000000000_k3x9q2m1z.wav" ]}
           ∪ {[ "/srv/app/temp_audio_transa/keep.wav" ]}) [].

(** [env] with an [fs.unlink] that fails. *)
Definition with_unlink_error (msg : string) (env : SubprocessEnv) : SubprocessEnv :=
  mkSubprocessEnv (now env) (random_suffix env) (writeFile_error env) (spawn env) (Some msg).

(** A child that prints padded markdown. *)
Definition padded_markdown_env : SubprocessEnv :=
  mkSubprocessEnv 1700000000000 "k3x9q2m1z" None
                  (fun _ _ => ProcClose (Some 0%Z) "  # Hej  " EmptyString) None.

(** [trim_start] on the list of characters. *)
Fixpoint drop_whitespace (l : list ascii) : list ascii :=
  match l with
  | [] => []
  | c :: rest => if is_whitespace c then drop_whitespace rest else l
  end.

(** The segments attributed to [speaker], in their order. *)
Definition segments_of (speaker : string) (segments : list Segment) : list Segment :=
  List.filter (fun s => bool_decide (seg_speaker s = Some speaker)) segments.

(** A segment whose speaker is a name, that is neither missing, empty nor
    ['Unknown']. *)
Definition attributed (s : Segment) : bool := named_speaker (seg_speaker s).




(** A service whose [preferredService] was set to something else after
    construction, and that has no API key. *)
Definition mock_only_service : TranscriptionService :=
  mkService (pythonService bare_service) false "mock".

(** The environments of a batch whose first child fails and whose later
    children print markdown. *)
Definition batch_envs (k : nat) : SubprocessEnv :=
  match k with
  | O => boom_env
  | S _ => markdown_env
  end.

Definition batch_calls (k : nat) : CallEnv :=
  mkCallEnv (batch_envs k) unreachable_api sample_mock_env.

(** A probe that finds the interpreter but not the modules. *)
Definition missing_module_env : SubprocessEnv :=
  mkSubprocessEnv 1700000000000 "k3x9q2m1z" None
                  (fun _ _ => ProcClose (Some 1%Z) EmptyString
                                ("Traceback: " ++ "ModuleNotFoundError"
                                 ++ ": No module named 'whisper_timestamped'"))
                  None.

(** A segment whose speaker label is a name every object inherits. *)
Definition inherited_name_segments : list Segment :=
  [ mkSegment 0.0 1.0 "hej" (Some "A"); mkSegment 1.0 2.0 "du" (Some "constructor") ].

(** The characters of [s] do not include [c]. *)
Definition free_of (c : ascii) (s : string) : Prop := ~ In c (list_ascii_of_string s).

(** A later call of the subprocess strategy, one millisecond on. *)
Definition later_env : SubprocessEnv :=
  mkSubprocessEnv 1700000000001 "k3x9q2m1z" None
                  (fun _ _ => ProcClose (Some 1%Z) EmptyString "boom") None.

(** A [spawn] that refuses its arguments and throws. *)
Definition refusing_spawn_env : SubprocessEnv :=
  mkSubprocessEnv 1700000000000 "k3x9q2m1z" None
                  (fun _ _ => SpawnThrows
                                (TypeError "The argument 'args[3]' must be a string without null bytes."))
                  None.

(** A disk that fills up while the buffer is being written. *)
Definition full_disk_env : SubprocessEnv :=
  mkSubprocessEnv 1700000000000 "k3x9q2m1z"
                  (Some (mkWriteFailure "ENOSPC: no space left on device, write" true))
                  (fun _ _ => ProcClose (Some 0%Z) "{}" EmptyString) None.

(** A child that is started and never ends. *)
Definition hanging_env : SubprocessEnv :=
  mkSubprocessEnv 1700000000000 "k3x9q2m1z" None (fun _ _ => ProcHangs) None.

Definition hanging_call : CallEnv := mkCallEnv hanging_env unreachable_api sample_mock_env.

(** No interpreter on the machine, and the ['close'] listener going on
    first: its unlink was carried out after that of the ['error']
    listener, and was called back before it. *)
Definition raced_env : SubprocessEnv :=
  mkSubprocessEnv 1700000000000 "k3x9q2m1z" None
    (fun _ _ =>
       ProcError "spawn python3 ENOENT" (-2) OnClose
         (Some (OnClose,
                "ENOENT: no such file or directory, unlink "
                ++ "'/srv/app/temp_audio_transa/audio_1700000000000_k3x9q2m1z.wav'")))
    None.

(** * Properties *)

(** ** Strings *)

Lemma prefix_app (s t : string) : String.prefix s (s ++ t) = true.
Proof.
  induction s as [|c s IH]; simpl.
  - destruct t; reflexivity.
  - destruct (ascii_dec c c) as [_|Hne]; [exact IH | congruence].
Qed.

Lemma includes_here (s sub : string) : String.prefix sub s = true -> includes s sub = true.
Proof. intros Hp. destruct s; simpl in *; rewrite Hp; reflexivity. Qed.

Lemma includes_cons (c : ascii) (s sub : string) :
  includes s sub = true -> includes (String c s) sub = true.
Proof.
  intros Hi. change (String.prefix sub (String c s) || includes s sub = true).
  rewrite Hi. apply orb_true_r.
Qed.

Lemma includes_app (pre sub post : string) : includes (pre ++ sub ++ post) sub = true.
Proof.
  induction pre as [|c pre IH].
  - change (includes (sub ++ post) sub = true). apply includes_here, prefix_app.
  - change (includes (String c (pre ++ sub ++ post)) sub = true).
    apply includes_cons, IH.
Qed.

Lemma includes_app_r (s t sub : string) :
  includes t sub = true -> includes (s ++ t) sub = true.
Proof.
  intros Hi. induction s as [|c s IH]; [exact Hi|].
  change (includes (String c (s ++ t)) sub = true). apply includes_cons, IH.
Qed.

Lemma append_empty_r (s : string) : s ++ EmptyString = s.
Proof.
  induction s as [|c s IH]; [reflexivity|].
  change (String c (s ++ EmptyString) = String c s). rewrite IH. reflexivity.
Qed.

Lemma includes_suffix (pre sub : string) : includes (pre ++ sub) sub = true.
Proof.
  rewrite <- (append_empty_r sub) at 1. apply includes_app.
Qed.

(** ** The confidence heuristic *)

Lemma filter_punctuation_length (text : string) :
  List.length (List.filter is_punctuation (list_ascii_of_string text))
  = punctuationMarkCount text.
Proof.
  induction text as [|c text IH]; simpl; [reflexivity|].
  destruct (is_punctuation c); simpl; rewrite IH; reflexivity.
Qed.

Lemma match_punctuation_length (text : string) :
  List.length (match match_punctuation text with Some ms => ms | None => [] end)
  = punctuationMarkCount text.
Proof.
  rewrite <- filter_punctuation_length. unfold match_punctuation.
  destruct (List.filter is_punctuation (list_ascii_of_string text)); reflexivity.
Qed.

Lemma num_of_nat_nonneg (n : nat) : (0 <= num_of_nat n)%Q.
Proof.
  unfold num_of_nat. change 0%Q with (inject_Z 0).
  rewrite <- Zle_Qle. apply Nat2Z.is_nonneg.
Qed.

(** Replace an innermost [Qmin a b] of the goal by a fresh name, keeping
    its two defining cases. *)
Ltac name_min :=
  match goal with
  | |- context [Qmin ?a ?b] =>
      lazymatch a with
      | context [Qmin _ _] => fail
      | _ =>
          let m := fresh "m" in
          let Hm := fresh "Hm" in
          pose proof (Q.min_spec a b) as Hm;
          set (m := Qmin a b) in *; clearbody m
      end
  end.

Ltac split_mins :=
  repeat match goal with
         | H : _ /\ _ |- _ => destruct H
         | H : _ \/ _ |- _ => destruct H
         end.

(** C5. For every text, the remote strategy's heuristic returns 0 on the
    empty text and otherwise
    [min(0.5 + min(length/100, 0.3) + min(punctuationMarkCount*0.1, 0.2), 1.0)],
    where [punctuationMarkCount] counts the characters [. , ! ? ;]; a text
    of length 200 with 3 punctuation marks gets exactly 1, and the value
    always lies in [[0, 1]]. *)
Theorem calculateConfidence_contract (text : string) :
  exists c : Q,
    calculateConfidence (JStr text) = Ok c /\
    (text = EmptyString -> c == 0)%Q /\
    (text <> EmptyString ->
       c == Qmin (0.5 + Qmin (num_of_nat (String.length text) / 100) 0.3
                      + Qmin (num_of_nat (punctuationMarkCount text) * 0.1) 0.2) 1.0)%Q /\
    (String.length text = 200%nat -> punctuationMarkCount text = 3%nat -> c == 1)%Q /\
    (0 <= c <= 1)%Q.
Proof.
  destruct text as [|ch text].
  - exists 0%Q. simpl. repeat split; intros; try reflexivity; try congruence; try lra.
  - exists (Qmin (0.5 + Qmin (num_of_nat (String.length (String ch text)) / 100) 0.3
                      + Qmin (num_of_nat (punctuationMarkCount (String ch text)) * 0.1) 0.2)
                 1.0).
    split.
    { unfold calculateConfidence. rewrite match_punctuation_length. reflexivity. }
    pose proof (num_of_nat_nonneg (String.length (String ch text))) as Hlen.
    pose proof (num_of_nat_nonneg (punctuationMarkCount (String ch text))) as Hcnt.
    split; [intros; discriminate|].
    split; [intros; reflexivity|].
    split.
    + intros H200 H3. rewrite H200, H3. vm_compute. reflexivity.
    + set (len := num_of_nat (String.length _)) in *.
      set (cnt := num_of_nat (punctuationMarkCount _)) in *.
      assert (0 <= len / 100)%Q as Hdiv
        by (apply Qmult_le_0_compat; [exact Hlen | discriminate]).
      set (x := (len / 100)%Q) in *.
      clearbody x len cnt. repeat name_min. split_mins; split; lra.
Qed.

Section Properties.

Context {rt : Runtime}.

(** ** Failures of the child process *)

Lemma is_zero_false (code : option Z) : code <> Some 0%Z -> is_zero code = false.
Proof.
  destruct code as [z|]; simpl; [|reflexivity].
  intros Hne. destruct (Z.eqb_spec z 0); [subst; congruence | reflexivity].
Qed.

(** C6. When the child exits with a code other than 0, the subprocess
    strategy fails with an error whose message carries the exit code and
    the captured standard error as they are; and a selector without the
    remote fallback fails with a message that contains that standard
    error. *)
Theorem nonzero_exit_reports_stderr (this : TranscriptionService) (env : CallEnv)
    (audioBuffer : Audio) (options : Options) (st st1 : State)
    (tempFilePath : string) (code : option Z) (stdout stderr : string) :
  saveAudioBuffer (pythonService this) (sub_env env) audioBuffer st = (Ok tempFilePath, st1) ->
  spawn (sub_env env) "python3" (python_args (pythonService this) tempFilePath options)
    = ProcClose code stdout stderr ->
  code <> Some 0%Z ->
  let failure := Error ("Python script failed with code " ++ show_code code ++ ": " ++ stderr) in
  fst (python_transcribeAudio (pythonService this) (sub_env env) audioBuffer options st)
    = Rejected failure /\
  includes (message failure) (show_code code) = true /\
  includes (message failure) stderr = true /\
  (preferredService this = "python" -> useOpenAI this = false ->
   exists e : JsError,
     fst (transcribeAudio this env audioBuffer options st) = Rejected e /\
     message e = "Transcription failed: " ++ message failure /\
     includes (message e) stderr = true).
Proof.
  intros Hsave Hspawn Hcode failure.
  assert (Hpy : fst (python_transcribeAudio (pythonService this) (sub_env env)
                       audioBuffer options st) = Rejected failure).
  { unfold python_transcribeAudio, on_close.
    rewrite Hsave, Hspawn, (is_zero_false _ Hcode). reflexivity. }
  assert (Hinc : includes (message failure) stderr = true).
  { unfold failure, Error, message.
    apply includes_app_r, includes_app_r, includes_suffix. }
  repeat split.
  - exact Hpy.
  - unfold failure, Error, message. apply includes_app.
  - exact Hinc.
  - intros Hpref Hno. exists (Error ("Transcription failed: " ++ message failure)).
    split; [|split].
    + unfold transcribeAudio, transcribeAudio_attempt. rewrite Hpref, Hno.
      destruct (python_transcribeAudio _ _ _ _ _) as [o st2]. simpl in Hpy. subst o.
      reflexivity.
    + reflexivity.
    + unfold Error at 1. unfold message at 1. apply includes_app_r, Hinc.
Qed.


(** ** Output that does not parse *)




(** ** Assembling the result of the subprocess strategy *)

Lemma map_word_strings (l : list JsVal) (ws : list string) :
  Forall2 (fun seg w => get seg "word" = Ok (JStr w)) l ws ->
  map_word l = Ok (map JStr ws).
Proof.
  induction 1 as [|seg w l ws Hw _ IH]; [reflexivity|].
  cbn [map_word map]. rewrite Hw, IH. reflexivity.
Qed.

Lemma array_join_strings (sep : string) (ws : list string) :
  array_join sep (map JStr ws) = String.concat sep ws.
Proof.
  unfold array_join. rewrite map_map. cbn [ToString].
  rewrite map_id. reflexivity.
Qed.

Lemma js_or_string_empty (s : string) : js_or (JStr s) (JStr EmptyString) = JStr s.
Proof.
  unfold js_or, truthy. destruct (String.eqb_spec s EmptyString) as [->|_]; reflexivity.
Qed.

Lemma truthy_nonempty (m : string) : m <> EmptyString -> truthy (JStr m) = true.
Proof.
  intros Hne. unfold truthy. destruct (String.eqb_spec m EmptyString); [contradiction|reflexivity].
Qed.

Lemma structured_result_shape (result v : JsVal) :
  structured_result result = Ok v ->
  exists text speakers segments duration totalWords : JsVal,
    result_text result = Ok text /\
    v = JObj [ ("text", text); ("language", JStr "sv"); ("confidence", JNum 0.9);
               ("speakers", speakers); ("segments", segments);
               ("duration", duration); ("totalWords", totalWords);
               ("pipeline", JStr "python-local"); ("raw", result) ].
Proof.
  unfold structured_result. destruct (result_text result) as [text|e]; [|discriminate].
  cbn [bind].
  destruct (get result "speakers") as [sp|]; [|discriminate].
  destruct (get result "segments") as [sg|]; [|discriminate].
  destruct (get result "duration") as [d|]; [|discriminate].
  destruct (get result "total_words") as [tw|]; [|discriminate].
  cbn [bind]. intros [= <-]. eauto 10.
Qed.

Lemma structured_result_object (props : list (string * JsVal)) (text : JsVal) :
  result_text (JObj props) = Ok text ->
  exists v : JsVal,
    structured_result (JObj props) = Ok v /\
    get v "text" = Ok text /\
    get v "confidence" = Ok (JNum 0.9).
Proof.
  intros Htext. unfold structured_result. rewrite Htext. cbn [bind get].
  eexists. split; [reflexivity|]. split; reflexivity.
Qed.

(** C8, as the code has it. For a parsed output that is an object, the
    assembled [text] is the [markdown] field when that is a non-empty
    string; when the field is missing or empty it is the [word] fields of
    the segments joined by single spaces in array order, which is the empty
    string when there are no segments; and whatever was parsed, an
    assembled result has confidence 0.9. *)
Theorem structured_result_assembly (props : list (string * JsVal)) :
  (forall m : string,
     lookup_prop "markdown" props = JStr m -> m <> EmptyString ->
     exists v : JsVal,
       structured_result (JObj props) = Ok v /\
       get v "text" = Ok (JStr m) /\
       get v "confidence" = Ok (JNum 0.9)) /\
  (forall ws : list string,
     lookup_prop "markdown" props = JUndefined \/
     lookup_prop "markdown" props = JStr EmptyString ->
     (lookup_prop "segments" props = JUndefined /\ ws = []) \/
     (exists l : list JsVal,
        lookup_prop "segments" props = JArr l /\
        Forall2 (fun seg w => get seg "word" = Ok (JStr w)) l ws) ->
     exists v : JsVal,
       structured_result (JObj props) = Ok v /\
       get v "text" = Ok (JStr (String.concat " " ws)) /\
       get v "confidence" = Ok (JNum 0.9)) /\
  (forall output v : JsVal,
     structured_result output = Ok v -> get v "confidence" = Ok (JNum 0.9)).
Proof.
  split; [|split].
  - intros m Hm Hne. apply structured_result_object.
    unfold result_text. cbn [get bind]. rewrite Hm, (truthy_nonempty _ Hne). reflexivity.
  - intros ws Hmd Hsegs. apply structured_result_object.
    unfold result_text. cbn [get bind].
    assert (Hfalsy : truthy (lookup_prop "markdown" props) = false)
      by (destruct Hmd as [-> | ->]; reflexivity).
    rewrite Hfalsy.
    destruct Hsegs as [[-> ->] | (l & -> & Hwords)]; [reflexivity|].
    rewrite (map_word_strings _ _ Hwords). cbn [bind].
    rewrite array_join_strings, js_or_string_empty. reflexivity.
  - intros output v Hv.
    destruct (structured_result_shape _ _ Hv) as (t & sp & sg & d & tw & _ & ->).
    reflexivity.
Qed.

(** ** Where a resolved value comes from, and what it looks like *)

Lemma python_resolved_shape (this : PythonTranscriptionService) (env : SubprocessEnv)
    (audioBuffer : Audio) (options : Options) (st st' : State) (v : JsVal) :
  python_transcribeAudio this env audioBuffer options st = (Resolved v, st') ->
  (exists result : JsVal, v = markdown_result result) \/
  (exists result : JsVal, structured_result result = Ok v).
Proof.
  assert (Hclose : forall code out err s,
            on_close options code out err s = (Resolved v, st') ->
            (exists result : JsVal, v = markdown_result result) \/
            (exists result : JsVal, structured_result result = Ok v)).
  { intros code out err s. unfold on_close.
    destruct (negb (is_zero code)); [discriminate|].
    destruct (parsePythonOutput out (outputFormat options) _) as [[result|e] st2];
      [|discriminate].
    destruct (match outputFormat options with Some f => String.eqb f "markdown" | None => false end).
    - intros [= <- _]. left. eauto.
    - destruct (structured_result result) as [v'|e] eqn:Hres; [|discriminate].
      intros [= <- _]. right. eauto. }
  unfold python_transcribeAudio.
  destruct (saveAudioBuffer this env audioBuffer st) as [[p|e] st1]; [|discriminate].
  destruct (spawn env "python3" _) as [e|msg code first raced|code out err|];
    try discriminate.
  - destruct first; [discriminate | apply Hclose].
  - apply Hclose.
Qed.

Lemma openai_resolved_shape (this : TranscriptionService) (env : RemoteEnv)
    (audioBuffer : Audio) (options : Options) (st st' : State) (v : JsVal) :
  transcribeWithOpenAI this env audioBuffer options st = (Resolved v, st') ->
  exists (request : TranscriptionRequest) (response text lang duration segments : JsVal)
         (confidence : Q),
    create env request = Ok response /\
    req_language request = default "en" (language options) /\
    get response "text" = Ok text /\
    get response "language" = Ok lang /\
    calculateConfidence text = Ok confidence /\
    v = JObj [ ("text", text);
               ("language", js_or lang (JStr (default "en" (language options))));
               ("duration", js_or duration JNull);
               ("segments", js_or segments JNull);
               ("confidence", JNum confidence) ].
Proof.
  unfold transcribeWithOpenAI, openai_attempt.
  destruct (match audioBuffer with ANull => _ | ABuffer _ => _ end); [discriminate|].
  destruct (negb (useOpenAI this)); [discriminate|].
  destruct (create env _) as [response|e] eqn:Hcreate; [|discriminate].
  destruct (unlinkSync_error env); [discriminate|].
  destruct (get response "text") as [text|] eqn:Htext; [|discriminate].
  destruct (get response "language") as [lang|] eqn:Hlang; [|discriminate].
  destruct (get response "duration") as [dur|]; [|discriminate].
  destruct (get response "segments") as [segs|]; [|discriminate].
  cbn [bind].
  destruct (calculateConfidence text) as [c|] eqn:Hc; [|discriminate].
  cbn [bind]. intros [= <- _].
  eexists _, response, text, lang, dur, segs, c.
  split; [exact Hcreate|]. split; [reflexivity|]. split; [exact Htext|].
  split; [exact Hlang|]. split; [exact Hc | reflexivity].
Qed.

Lemma mock_resolved_shape (env : MockEnv) (audioBuffer : Audio) (options : Options)
    (v : JsVal) :
  snd (getMockTranscription env audioBuffer options) = Resolved v ->
  exists (bytes : list Byte.byte) (text : JsVal),
    audioBuffer = ABuffer bytes /\
    v = JObj [ ("text", text);
               ("language", JStr (if truthy_string (language options)
                                  then default EmptyString (language options)
                                  else "en"));
               ("duration", JNum (num_of_nat (List.length bytes) / 16000));
               ("confidence", JNum (random_confidence env * 0.3 + 0.7));
               ("mock", JBool true) ].
Proof.
  unfold getMockTranscription. cbn [snd].
  destruct audioBuffer as [|bytes]; [discriminate|].
  intros [= <-]. eauto.
Qed.

(** A value the selector resolves with was resolved by one of the three
    strategies. *)
Lemma selector_resolved_origin (this : TranscriptionService) (env : CallEnv)
    (audioBuffer : Audio) (options : Options) (st st' : State) (v : JsVal) :
  transcribeAudio this env audioBuffer options st = (Resolved v, st') ->
  (exists s1 : State,
     python_transcribeAudio (pythonService this) (sub_env env) audioBuffer options st
     = (Resolved v, s1)) \/
  (exists s0 s1 : State,
     transcribeWithOpenAI this (remote_env env) audioBuffer options s0 = (Resolved v, s1)) \/
  snd (getMockTranscription (mock_env env) audioBuffer options) = Resolved v.
Proof.
  unfold transcribeAudio, transcribeAudio_attempt.
  destruct (String.eqb (preferredService this) "python").
  - destruct (python_transcribeAudio _ _ _ _ _) as [[pv|pe|pe|] s1].
    + intros [= <- _]. left. eauto.
    + destruct (useOpenAI this).
      * destruct (transcribeWithOpenAI _ _ _ _ _) as [[rv|re|re|] s2] eqn:Hr;
          intros [= <- _]. right. left. eauto.
      * discriminate.
    + discriminate.
    + discriminate.
  - destruct (useOpenAI this).
    + destruct (transcribeWithOpenAI _ _ _ _ _) as [[rv|re|re|] s2] eqn:Hr;
        intros [= <- _]. right. left. eauto.
    + destruct (snd (getMockTranscription _ _ _)) as [mv|me|me|] eqn:Hm;
        intros [= <- _]. right. right. reflexivity.
Qed.

(** ** The tag and the language of a result *)

(** C3, as the code has it. Only the subprocess strategy writes a
    [pipeline] field, always ['python-local']; the remote strategy writes
    neither [pipeline] nor [mock], and the mock writes [mock: true] and no
    [pipeline]. So a value the selector resolves with shows one of three
    different pairs of tags. *)
Theorem tags_by_strategy (this : TranscriptionService) (env : CallEnv)
    (audioBuffer : Audio) (options : Options) (st st' : State) (v : JsVal) :
  (python_transcribeAudio (pythonService this) (sub_env env) audioBuffer options st
   = (Resolved v, st') ->
   tags v = (Ok (JStr "python-local"), Ok JUndefined)) /\
  (transcribeWithOpenAI this (remote_env env) audioBuffer options st = (Resolved v, st') ->
   tags v = (Ok JUndefined, Ok JUndefined)) /\
  (snd (getMockTranscription (mock_env env) audioBuffer options) = Resolved v ->
   tags v = (Ok JUndefined, Ok (JBool true))) /\
  (transcribeAudio this env audioBuffer options st = (Resolved v, st') ->
   tags v = (Ok (JStr "python-local"), Ok JUndefined) \/
   tags v = (Ok JUndefined, Ok JUndefined) \/
   tags v = (Ok JUndefined, Ok (JBool true))).
Proof.
  assert (Hpy : forall s s1, python_transcribeAudio (pythonService this) (sub_env env)
                               audioBuffer options s = (Resolved v, s1) ->
                             tags v = (Ok (JStr "python-local"), Ok JUndefined)).
  { intros s s1 Hrun.
    destruct (python_resolved_shape _ _ _ _ _ _ _ Hrun) as [[r ->] | [r Hr]];
      [reflexivity|].
    destruct (structured_result_shape _ _ Hr) as (t & sp & sg & d & tw & _ & ->).
    reflexivity. }
  assert (Hre : forall s s1, transcribeWithOpenAI this (remote_env env) audioBuffer
                               options s = (Resolved v, s1) ->
                             tags v = (Ok JUndefined, Ok JUndefined)).
  { intros s s1 Hrun.
    destruct (openai_resolved_shape _ _ _ _ _ _ _ Hrun)
      as (rq & rs & t & l & d & sg & c & _ & _ & _ & _ & _ & ->).
    reflexivity. }
  assert (Hmo : snd (getMockTranscription (mock_env env) audioBuffer options) = Resolved v ->
                tags v = (Ok JUndefined, Ok (JBool true))).
  { intros Hrun. destruct (mock_resolved_shape _ _ _ _ Hrun) as (b & t & _ & ->).
    reflexivity. }
  split; [apply Hpy|]. split; [apply Hre|]. split; [exact Hmo|].
  intros Hsel.
  destruct (selector_resolved_origin _ _ _ _ _ _ _ Hsel) as [[s1 H1] | [(s0 & s1 & H2) | H3]].
  - left. eapply Hpy, H1.
  - right. left. eapply Hre, H2.
  - right. right. apply Hmo, H3.
Qed.

(** C10, as the code has it. A result of the subprocess strategy has
    language ['sv'] whatever was asked for; a result of the remote strategy
    has the language the API reported when that is truthy, and otherwise the
    language asked for, ['en'] when none was; a mock result has the language
    asked for when that is a non-empty string, and otherwise ['en']. *)
Theorem language_by_strategy (this : TranscriptionService) (env : CallEnv)
    (audioBuffer : Audio) (options : Options) (st st' : State) (v : JsVal) :
  (python_transcribeAudio (pythonService this) (sub_env env) audioBuffer options st
   = (Resolved v, st') ->
   get v "language" = Ok (JStr "sv")) /\
  (transcribeWithOpenAI this (remote_env env) audioBuffer options st = (Resolved v, st') ->
   exists (request : TranscriptionRequest) (response reported : JsVal),
     create (remote_env env) request = Ok response /\
     req_language request = default "en" (language options) /\
     get response "language" = Ok reported /\
     (truthy reported = true -> get v "language" = Ok reported) /\
     (truthy reported = false ->
      get v "language" = Ok (JStr (default "en" (language options))))) /\
  (snd (getMockTranscription (mock_env env) audioBuffer options) = Resolved v ->
   (forall l : string,
      language options = Some l -> l <> EmptyString -> get v "language" = Ok (JStr l)) /\
   (language options = None \/ language options = Some EmptyString ->
    get v "language" = Ok (JStr "en"))).
Proof.
  split; [|split].
  - intros Hrun.
    destruct (python_resolved_shape _ _ _ _ _ _ _ Hrun) as [[r ->] | [r Hr]];
      [reflexivity|].
    destruct (structured_result_shape _ _ Hr) as (t & sp & sg & d & tw & _ & ->).
    reflexivity.
  - intros Hrun.
    destruct (openai_resolved_shape _ _ _ _ _ _ _ Hrun)
      as (rq & rs & t & l & d & sg & c & Hcreate & Hlang & _ & Hrep & _ & ->).
    exists rq, rs, l. split; [exact Hcreate|]. split; [exact Hlang|].
    split; [exact Hrep|]. cbn [get lookup_prop String.eqb Ascii.eqb Bool.eqb].
    unfold js_or. split; intros ->; reflexivity.
  - intros Hrun. destruct (mock_resolved_shape _ _ _ _ Hrun) as (b & t & _ & ->).
    cbn [get lookup_prop String.eqb Ascii.eqb Bool.eqb]. split.
    + intros l -> Hne. unfold truthy_string.
      destruct (String.eqb_spec l EmptyString); [contradiction | reflexivity].
    + intros [-> | ->]; reflexivity.
Qed.

(** ** The mock strategy *)

(** C9, as the code has it. For every buffer, the empty one included, and
    whatever [Math.random] returns in [[0, 1)], the mock resolves after a
    delay of at least 1000 and at most 3000, with a confidence in
    [[0.7, 1)] and a duration of [length / 16000]. The bound 3000 is not
    claimed to be strict: the sum is rounded in the running code, where it
    comes out as 3000 for the largest number below 1. *)
Theorem mock_resolves_within_bounds (env : MockEnv) (bytes : list Byte.byte)
    (options : Options) :
  (0 <= random_delay env < 1)%Q ->
  (0 <= random_confidence env < 1)%Q ->
  exists (delay confidence duration : Q) (v : JsVal),
    getMockTranscription env (ABuffer bytes) options = (delay, Resolved v) /\
    (1000 <= delay <= 3000)%Q /\
    get v "confidence" = Ok (JNum confidence) /\
    (0.7 <= confidence < 1)%Q /\
    get v "duration" = Ok (JNum duration) /\
    (duration == num_of_nat (List.length bytes) / 16000)%Q.
Proof.
  intros Hdelay Hconf.
  exists (random_delay env * 2000 + 1000)%Q, (random_confidence env * 0.3 + 0.7)%Q,
         (num_of_nat (List.length bytes) / 16000)%Q.
  eexists. split; [reflexivity|].
  split; [split; lra|]. split; [reflexivity|]. split; [split; lra|].
  split; reflexivity.
Qed.

(** ** The status accessor *)

Lemma js_or_bool (a b : bool) : js_or (JBool a) (JBool b) = JBool (a || b).
Proof. destruct a; reflexivity. Qed.

(** C4, as the code has it. When the probe settles, the status object has
    exactly the four fields [preferredService], [pythonService] (the
    bridge's own status, with the probe's verdict in [available]),
    [openaiConfigured] and [overallConfigured], the last being the
    disjunction of the other two verdicts; there is no [mockModeActive]
    field. *)
Theorem service_status_fields (this : TranscriptionService) (penv : ProcessEnv)
    (env : SubprocessEnv) (available : bool) :
  isAvailable env = Settled (Ok available) ->
  let openaiConfigured := useOpenAI this && truthy_string (OPENAI_API_KEY penv) in
  exists v pythonStatus : JsVal,
    getServiceStatus this penv env = Settled (Ok v) /\
    keys v = ["preferredService"; "pythonService"; "openaiConfigured"; "overallConfigured"] /\
    get v "preferredService" = Ok (JStr (preferredService this)) /\
    get v "pythonService" = Ok pythonStatus /\
    get pythonStatus "available" = Ok (JBool available) /\
    get v "openaiConfigured" = Ok (JBool openaiConfigured) /\
    get v "overallConfigured" = Ok (JBool (available || openaiConfigured)) /\
    get v "mockModeActive" = Ok JUndefined.
Proof.
  intros Hprobe openaiConfigured.
  unfold getServiceStatus, getStatus. rewrite Hprobe.
  cbn [await bind get lookup_prop String.eqb Ascii.eqb Bool.eqb].
  rewrite js_or_bool. fold openaiConfigured.
  eexists _, _. split; [reflexivity|]. repeat split; reflexivity.
Qed.

(** ** The selection policy *)

Lemma python_result_not_mock (this : PythonTranscriptionService) (env : SubprocessEnv)
    (audioBuffer : Audio) (options : Options) (st st' : State) (v : JsVal) :
  python_transcribeAudio this env audioBuffer options st = (Resolved v, st') ->
  get v "mock" = Ok JUndefined.
Proof.
  intros Hrun.
  destruct (python_resolved_shape _ _ _ _ _ _ _ Hrun) as [[r ->] | [r Hr]]; [reflexivity|].
  destruct (structured_result_shape _ _ Hr) as (t & sp & sg & d & tw & _ & ->).
  reflexivity.
Qed.

Lemma openai_result_not_mock (this : TranscriptionService) (env : RemoteEnv)
    (audioBuffer : Audio) (options : Options) (st st' : State) (v : JsVal) :
  transcribeWithOpenAI this env audioBuffer options st = (Resolved v, st') ->
  get v "mock" = Ok JUndefined.
Proof.
  intros Hrun.
  destruct (openai_resolved_shape _ _ _ _ _ _ _ Hrun)
    as (rq & rs & t & l & d & sg & c & _ & _ & _ & _ & _ & ->).
  reflexivity.
Qed.

(** C2, as the code has it. A service built by the constructor tries the
    subprocess strategy first and returns its result, and waits for ever
    if that strategy never settles. When that strategy fails and an API
    key is configured, the remote strategy runs: its result is returned,
    and its failure is the one reported. When the subprocess strategy
    fails and no API key is configured, the call fails with the subprocess
    strategy's error. Such a service never returns a mock result. For a
    service object of any make, the mock runs exactly when
    [preferredService] is not ['python'] and there is no API key: then
    the call ends as the mock does, and a call that resolves with a result
    marked [mock], or that a throwing callback leaves unsettled, is a
    call on such a service; with [preferredService] not ['python'] and an
    API key, the call ends as the remote strategy does. *)
Theorem selection_policy (penv : ProcessEnv) (env : CallEnv) (audioBuffer : Audio)
    (options : Options) (st : State) :
  let this := newTranscriptionService penv in
  let python :=
    python_transcribeAudio (pythonService this) (sub_env env) audioBuffer options st in
  let selected := transcribeAudio this env audioBuffer options st in
  (forall v : JsVal, fst python = Resolved v -> selected = (Resolved v, snd python)) /\
  (fst python = Pending -> selected = (Pending, snd python)) /\
  (forall e_py : JsError,
     fst python = Rejected e_py ->
     let warned :=
       console_warn ["⚠️ Python pipeline failed, falling back to OpenAI:"; message e_py]
                    (snd python) in
     let remote := transcribeWithOpenAI this (remote_env env) audioBuffer options warned in
     (truthy_string (OPENAI_API_KEY penv) = true ->
      (forall v : JsVal, fst remote = Resolved v -> selected = (Resolved v, snd remote)) /\
      (forall e_r : JsError,
         fst remote = Rejected e_r ->
         fst selected = Rejected (Error ("Transcription failed: " ++ message e_r)))) /\
     (truthy_string (OPENAI_API_KEY penv) = false ->
      fst selected = Rejected (Error ("Transcription failed: " ++ message e_py)))) /\
  (forall (v : JsVal) (st' : State),
     selected = (Resolved v, st') -> get v "mock" = Ok JUndefined) /\
  (forall other : TranscriptionService,
     let run := transcribeAudio other env audioBuffer options st in
     (preferredService other <> "python" -> useOpenAI other = false ->
      fst run = snd (getMockTranscription (mock_env env) audioBuffer options)) /\
     (forall v : JsVal,
        fst run = Resolved v -> get v "mock" = Ok (JBool true) ->
        preferredService other <> "python" /\ useOpenAI other = false) /\
     (forall e : JsError,
        fst run = Unsettled e ->
        preferredService other <> "python" /\ useOpenAI other = false) /\
     (preferredService other <> "python" -> useOpenAI other = true ->
      fst run
      = match fst (transcribeWithOpenAI other (remote_env env) audioBuffer options st) with
        | Rejected e_r => Rejected (Error ("Transcription failed: " ++ message e_r))
        | settled => settled
        end)).
Proof.
  intros this python selected.
  assert (Hsel : selected =
    match python with
    | (Rejected e_py, s1) =>
        let warned :=
          console_warn ["⚠️ Python pipeline failed, falling back to OpenAI:"; message e_py]
                       s1 in
        match (if truthy_string (OPENAI_API_KEY penv)
               then transcribeWithOpenAI this (remote_env env) audioBuffer options warned
               else (Rejected e_py, warned)) with
        | (Rejected error, s2) =>
            (Rejected (Error ("Transcription failed: " ++ message error)),
             console_error ["Transcription error:"; message error] s2)
        | settled => settled
        end
    | settled => settled
    end).
  { unfold selected, transcribeAudio, transcribeAudio_attempt.
    change (preferredService this) with "python".
    change (useOpenAI this) with (truthy_string (OPENAI_API_KEY penv)).
    cbn [String.eqb Ascii.eqb Bool.eqb]. fold python.
    destruct python as [[pv|pe|pe|] s1]; reflexivity. }
  split; [|split; [|split; [|split]]].
  - intros v Hv. rewrite Hsel. destruct python as [o s1]. cbn in Hv. subst o. reflexivity.
  - intros Hp. rewrite Hsel. destruct python as [o s1]. cbn in Hp. subst o. reflexivity.
  - intros e_py He warned remote. split.
    + intros Hkey. split.
      * intros v Hv. rewrite Hsel. subst remote warned.
        destruct python as [o s1]. cbn [fst snd] in *. subst o.
        cbn zeta. rewrite Hkey.
        destruct (transcribeWithOpenAI _ _ _ _ _) as [ro s2]. cbn [fst snd] in *.
        subst ro. reflexivity.
      * intros e_r Hr. rewrite Hsel. subst remote warned.
        destruct python as [o s1]. cbn [fst snd] in *. subst o.
        cbn zeta. rewrite Hkey.
        destruct (transcribeWithOpenAI _ _ _ _ _) as [ro s2]. cbn [fst snd] in *.
        subst ro. reflexivity.
    + intros Hkey. rewrite Hsel. destruct python as [o s1]. cbn in He. subst o.
      cbn zeta. rewrite Hkey. reflexivity.
  - intros v st' Hres. rewrite Hsel in Hres.
    destruct python as [[pv|pe|pe|] s1] eqn:Hpy.
    + injection Hres as <- _. exact (python_result_not_mock _ _ _ _ _ _ _ Hpy).
    + cbn zeta in Hres. destruct (truthy_string (OPENAI_API_KEY penv)); [|discriminate].
      destruct (transcribeWithOpenAI _ _ _ _ _) as [[rv|re|re|] s2] eqn:Hr;
        try discriminate.
      injection Hres as <- _. exact (openai_result_not_mock _ _ _ _ _ _ _ Hr).
    + discriminate.
    + discriminate.
  - clear Hsel. clear selected python this.
    intros other run. subst run. unfold transcribeAudio, transcribeAudio_attempt.
    destruct (String.eqb_spec (preferredService other) "python") as [Heq|Hne].
    + split; [intros Hpref; contradiction|].
      destruct (python_transcribeAudio _ _ _ _ _) as [[pv|pe|pe|] s1] eqn:Hpy.
      * cbn [fst]. split; [|split; [intros e [=] | intros Hpref; contradiction]].
        intros v [= <-] Hmock.
        rewrite (python_result_not_mock _ _ _ _ _ _ _ Hpy) in Hmock. discriminate.
      * destruct (useOpenAI other).
        -- destruct (transcribeWithOpenAI _ _ _ _ _) as [[rv|re|re|] s2] eqn:Hr; cbn [fst].
           ++ split; [|split; [intros e [=] | intros Hpref; contradiction]].
              intros v [= <-] Hmock.
              rewrite (openai_result_not_mock _ _ _ _ _ _ _ Hr) in Hmock. discriminate.
           ++ split; [intros v [=]|].
              split; [intros e [=] | intros Hpref; contradiction].
           ++ exfalso. revert Hr. unfold transcribeWithOpenAI.
              destruct (openai_attempt _ _ _ _ _) as [[rv|re'] s3]; discriminate.
           ++ exfalso. revert Hr. unfold transcribeWithOpenAI.
              destruct (openai_attempt _ _ _ _ _) as [[rv|re'] s3]; discriminate.
        -- cbn [fst]. split; [intros v [=]|].
           split; [intros e [=] | intros Hpref; contradiction].
      * exfalso. revert Hpy. unfold python_transcribeAudio.
        destruct (saveAudioBuffer _ _ _ _) as [[p|e0] st1]; [|discriminate].
        assert (Hclose : forall code out err s, fst (on_close options code out err s)
                                                <> Unsettled pe).
        { intros code out err s. unfold on_close.
          destruct (negb (is_zero code)); [discriminate|].
          destruct (parsePythonOutput out (outputFormat options) _) as [[result|e0] s2];
            [|discriminate].
          destruct (match outputFormat options with Some f => String.eqb f "markdown" | None => false end);
            [discriminate|].
          destruct (structured_result result); discriminate. }
        destruct (spawn _ "python3" _) as [e0|m code first raced|code out err|];
          try discriminate.
        -- destruct first; [discriminate|]. intros Hrun.
           apply (Hclose (Some code) EmptyString EmptyString
                         (console_log
                            (cleanup_warning (sub_env env) p raced OnClose st1)
                            (unlinked (sub_env env) p st1))).
           rewrite Hrun. reflexivity.
        -- intros Hrun. apply (Hclose code out err (cleanupTempFile (sub_env env) p st1)).
           rewrite Hrun. reflexivity.
      * cbn [fst]. split; [intros v [=]|].
        split; [intros e [=] | intros Hpref; contradiction].
    + destruct (useOpenAI other).
      * split; [intros _ [=]|].
        destruct (transcribeWithOpenAI _ _ _ _ _) as [[rv|re|re|] s2] eqn:Hr; cbn [fst].
        -- split; [|split; [intros e [=] | reflexivity]].
           intros v [= <-] Hmock.
           rewrite (openai_result_not_mock _ _ _ _ _ _ _ Hr) in Hmock. discriminate.
        -- split; [intros v [=]|]. split; [intros e [=] | reflexivity].
        -- exfalso. revert Hr. unfold transcribeWithOpenAI.
           destruct (openai_attempt _ _ _ _ _) as [[rv|re'] s3]; discriminate.
        -- exfalso. revert Hr. unfold transcribeWithOpenAI.
           destruct (openai_attempt _ _ _ _ _) as [[rv|re'] s3]; discriminate.
      * split.
        { intros _ _. destruct audioBuffer; reflexivity. }
        split; [intros v _ _; split; [exact Hne | reflexivity]|].
        split; [intros e _; split; [exact Hne | reflexivity]|].
        intros _ [=].
Qed.

(** ** Temporary files *)

Lemma parsePythonOutput_files (output : string) (fmt : option string) (st : State) :
  files (snd (parsePythonOutput output fmt st)) = files st.
Proof.
  unfold parsePythonOutput.
  destruct (String.eqb _ "markdown"); [reflexivity|].
  destruct (JSON_parse output); reflexivity.
Qed.

Lemma cleanup_after_create (env : SubprocessEnv) (p : string) (st : State) :
  unlink_error env = None ->
  p ∉ files st ->
  files (cleanupTempFile env p (create_file p st)) = files st.
Proof.
  intros Hunlink Hfresh. unfold cleanupTempFile. rewrite Hunlink.
  destruct (decide (p ∈ files (create_file p st))) as [_|Hout]; cbn [files create_file remove_file] in *.
  - set_solver.
  - set_solver.
Qed.

Lemma on_close_files (options : Options) (code : option Z) (stdout stderr : string)
    (st : State) :
  files (snd (on_close options code stdout stderr st)) = files st.
Proof.
  unfold on_close. destruct (negb (is_zero code)); [reflexivity|].
  pose proof (parsePythonOutput_files stdout (outputFormat options) st) as Hparse.
  destruct (parsePythonOutput stdout (outputFormat options) st) as [[result|e] s2];
    cbn [snd] in Hparse |- *; [|exact Hparse].
  destruct (match outputFormat options with Some f => String.eqb f "markdown" | None => false end);
    [exact Hparse|].
  destruct (structured_result result); exact Hparse.
Qed.

Lemma unlinked_files (env : SubprocessEnv) (p : string) (st : State) :
  files (unlinked env p st) = files (cleanupTempFile env p st).
Proof.
  unfold unlinked, cleanupTempFile.
  destruct (decide (p ∈ files st)); [|reflexivity].
  destruct (unlink_error env); reflexivity.
Qed.

(** What the subprocess strategy leaves on disk once the buffer is written
    and the child has been started and has come to an end: what its
    cleanup leaves. *)
Lemma python_files_after_events (this : PythonTranscriptionService) (env : SubprocessEnv)
    (tempFilePath : string) (options : Options) (st : State) :
  (forall e, spawn env "python3" (python_args this tempFilePath options) <> SpawnThrows e) ->
  spawn env "python3" (python_args this tempFilePath options) <> ProcHangs ->
  files (snd (match spawn env "python3" (python_args this tempFilePath options) with
              | SpawnThrows error => (Rejected error, st)
              | ProcError msg code first raced =>
                  match first with
                  | OnError =>
                      (Rejected (Error ("Failed to start Python process: " ++ msg)),
                       console_log (cleanup_warning env tempFilePath raced OnError st)
                                   (unlinked env tempFilePath st))
                  | OnClose =>
                      on_close options (Some code) EmptyString EmptyString
                        (console_log (cleanup_warning env tempFilePath raced OnClose st)
                                     (unlinked env tempFilePath st))
                  end
              | ProcClose code stdout stderr =>
                  on_close options code stdout stderr (cleanupTempFile env tempFilePath st)
              | ProcHangs => (Pending, st)
              end))
  = files (cleanupTempFile env tempFilePath st).
Proof.
  intros Hstarted Hends.
  destruct (spawn env "python3" _) as [e|msg code first raced|code out err|].
  - exfalso. exact (Hstarted e eq_refl).
  - destruct first; [|rewrite on_close_files]; cbn [snd files console_log];
      apply unlinked_files.
  - apply on_close_files.
  - exfalso. exact (Hends eq_refl).
Qed.

(** The subprocess strategy removes the file it wrote, on the ['close'] and
    on the ['error'] path alike, whenever the write has not failed after
    creating the file, the child was started and came to an end, and the
    unlink goes through. *)
Lemma python_keeps_directory (this : PythonTranscriptionService) (env : SubprocessEnv)
    (audioBuffer : Audio) (options : Options) (st : State) :
  (forall failure, writeFile_error env = Some failure -> file_created failure = false) ->
  unlink_error env = None ->
  (forall cmd args e, spawn env cmd args <> SpawnThrows e) ->
  (forall cmd args, spawn env cmd args <> ProcHangs) ->
  path_join (tempDir this)
            ("audio_" ++ show_Z (now env) ++ "_" ++ random_suffix env ++ ".wav")
    ∉ files st ->
  files (snd (python_transcribeAudio this env audioBuffer options st)) = files st.
Proof.
  intros Hwrite Hunlink Hstarted Hends Hfresh. unfold python_transcribeAudio, saveAudioBuffer.
  destruct audioBuffer as [|bytes]; [reflexivity|].
  destruct (writeFile_error env) as [failure|].
  { rewrite (Hwrite failure eq_refl). reflexivity. }
  rewrite python_files_after_events by (intros; first [apply Hstarted | apply Hends]).
  apply cleanup_after_create; assumption.
Qed.

(** C1 fails on the remote strategy. When the subprocess strategy has
    failed, an API key is configured, the buffer was written and the API
    call fails, the selector rejects and the file written for the upload is
    still on disk: one file more than the subprocess strategy left. *)
Theorem remote_failure_leaves_temp_file (this : TranscriptionService) (env : CallEnv)
    (bytes : list Byte.byte) (options : Options) (st st_py : State)
    (e_py e_api : JsError) :
  preferredService this = "python" ->
  useOpenAI this = true ->
  python_transcribeAudio (pythonService this) (sub_env env) (ABuffer bytes) options st
    = (Rejected e_py, st_py) ->
  writeFileSync_error (remote_env env) = None ->
  (forall request, create (remote_env env) request = Throw e_api) ->
  let tempFilePath :=
    path_join (path_join dirname "temp")
              ("temp_audio_" ++ show_Z (remote_now (remote_env env)) ++ ".wav") in
  let run := transcribeAudio this env (ABuffer bytes) options st in
  fst run = Rejected (Error ("Transcription failed: " ++ message e_api)) /\
  tempFilePath ∈ files (snd run) /\
  (tempFilePath ∉ files st_py -> size (files (snd run)) = S (size (files st_py))).
Proof.
  intros Hpref Hkey Hpy Hwrite Hapi tempFilePath run.
  assert (Hrun : run =
    (Rejected (Error ("Transcription failed: " ++ message e_api)),
     console_error ["Transcription error:"; message e_api]
       (console_error ["OpenAI transcription error:"; message e_api]
          (create_file tempFilePath
             (console_warn ["⚠️ Python pipeline failed, falling back to OpenAI:";
                            message e_py] st_py))))).
  { unfold run, transcribeAudio, transcribeAudio_attempt.
    rewrite Hpref, Hpy, Hkey. cbn [String.eqb Ascii.eqb Bool.eqb].
    unfold transcribeWithOpenAI, openai_attempt.
    rewrite Hwrite, Hkey, Hapi. reflexivity. }
  rewrite Hrun. cbn [fst snd files console_error create_file console_warn].
  split; [reflexivity|]. split; [set_solver|].
  intros Hfresh. rewrite size_union by set_solver. rewrite size_singleton. reflexivity.
Qed.

End Properties.

(** * Closed instances on the sample run *)

Lemma calculateConfidence_contract_witness :
  exists c : Q, calculateConfidence (JStr sample_text) = Ok c /\ (c == 1)%Q.
Proof.
  destruct (calculateConfidence_contract sample_text) as (c & Hc & _ & _ & H200 & _).
  exists c. split; [exact Hc | apply H200; reflexivity].
Defined.

Lemma nonzero_exit_reports_stderr_witness :
  exists e : JsError,
    fst (transcribeAudio (rt := sample_runtime) bare_service boom_call (ABuffer [])
           no_options empty_state) = Rejected e /\
    includes (message e) "boom" = true.
Proof.
  destruct (nonzero_exit_reports_stderr (rt := sample_runtime) bare_service boom_call
              (ABuffer []) no_options empty_state _ _ (Some 1%Z) EmptyString "boom"
              eq_refl eq_refl ltac:(discriminate)) as (_ & _ & _ & Hsel).
  destruct (Hsel eq_refl eq_refl) as (e & He & _ & Hinc).
  exists e. split; assumption.
Defined.



(** C8 as stated fails: a [markdown] field that is present and empty is
    passed over, and the text is taken from the segments. *)
Lemma empty_markdown_is_passed_over :
  get empty_markdown_output "markdown" = Ok (JStr EmptyString) /\
  exists v : JsVal,
    structured_result (rt := sample_runtime) empty_markdown_output = Ok v /\
    get v "text" = Ok (JStr "hej du") /\
    JStr "hej du" <> JStr EmptyString.
Proof.
  split; [reflexivity|]. eexists. split; [reflexivity|]. split; [reflexivity|discriminate].
Qed.

Lemma structured_result_assembly_witness :
  exists v : JsVal,
    structured_result (rt := sample_runtime)
      (JObj [ ("segments", JArr [ JObj [("word", JStr "hej")]; JObj [("word", JStr "du")] ]) ])
    = Ok v /\
    get v "text" = Ok (JStr "hej du").
Proof.
  destruct (structured_result_assembly (rt := sample_runtime)
              [ ("segments", JArr [ JObj [("word", JStr "hej")]; JObj [("word", JStr "du")] ]) ])
    as (_ & Hwords & _).
  destruct (Hwords ["hej"; "du"]) as (v & Hv & Htext & _).
  - left. reflexivity.
  - right. eexists. split; [reflexivity|]. repeat constructor.
  - exists v. split; assumption.
Defined.

(** C3 as stated fails: what the remote strategy returns has no [pipeline]
    field. *)
Lemma remote_result_has_no_pipeline :
  exists v : JsVal,
    fst (transcribeAudio (rt := sample_runtime) keyed_service fallback_call (ABuffer [])
           no_options empty_state) = Resolved v /\
    get v "text" = Ok (JStr "Hello there.") /\
    get v "pipeline" = Ok JUndefined.
Proof.
  eexists. split; [vm_compute; reflexivity|]. split; reflexivity.
Qed.

Lemma tags_by_strategy_witness :
  tags (markdown_result (JStr "Hej.")) = (Ok (JStr "python-local"), Ok JUndefined).
Proof.
  refine (proj1 (tags_by_strategy (rt := sample_runtime) bare_service
                   (mkCallEnv markdown_env unreachable_api sample_mock_env) (ABuffer [])
                   english_markdown empty_state
                   (snd (python_transcribeAudio (rt := sample_runtime)
                           (pythonService bare_service) markdown_env (ABuffer [])
                           english_markdown empty_state))
                   (markdown_result (JStr "Hej."))) _).
  vm_compute. reflexivity.
Defined.

(** C10 as stated fails: the subprocess strategy answers ['sv'] to a request
    for English. *)
Lemma subprocess_result_ignores_requested_language :
  language english_markdown = Some "en" /\
  exists v : JsVal,
    fst (python_transcribeAudio (rt := sample_runtime) (pythonService bare_service)
           markdown_env (ABuffer []) english_markdown empty_state) = Resolved v /\
    get v "language" = Ok (JStr "sv") /\
    JStr "sv" <> JStr "en".
Proof.
  split; [reflexivity|]. eexists. split; [vm_compute; reflexivity|].
  split; [reflexivity|discriminate].
Qed.

Lemma language_by_strategy_witness :
  get (markdown_result (JStr "Hej.")) "language" = Ok (JStr "sv").
Proof.
  refine (proj1 (language_by_strategy (rt := sample_runtime) bare_service
                   (mkCallEnv markdown_env unreachable_api sample_mock_env) (ABuffer [])
                   english_markdown empty_state
                   (snd (python_transcribeAudio (rt := sample_runtime)
                           (pythonService bare_service) markdown_env (ABuffer [])
                           english_markdown empty_state))
                   (markdown_result (JStr "Hej."))) _).
  vm_compute. reflexivity.
Defined.

(** C9 as stated fails: on a null buffer the timer's callback throws and
    the promise is never resolved. *)
Lemma mock_on_null_never_resolves :
  snd (getMockTranscription sample_mock_env ANull no_options)
  = Unsettled (TypeError "Cannot read properties of null (reading 'length')") /\
  forall v : JsVal, snd (getMockTranscription sample_mock_env ANull no_options) <> Resolved v.
Proof. split; [reflexivity | discriminate]. Qed.

Lemma mock_resolves_within_bounds_witness :
  exists (delay confidence duration : Q) (v : JsVal),
    getMockTranscription sample_mock_env (ABuffer []) no_options = (delay, Resolved v) /\
    (1000 <= delay <= 3000)%Q /\
    get v "confidence" = Ok (JNum confidence) /\
    (0.7 <= confidence < 1)%Q /\
    get v "duration" = Ok (JNum duration) /\
    (duration == num_of_nat 0 / 16000)%Q.
Proof.
  apply (mock_resolves_within_bounds sample_mock_env [] no_options); simpl; lra.
Defined.

(** C4 as stated fails: the status object has four other fields, and with
    no backend at all it says [overallConfigured: false]. *)
Lemma status_without_backends :
  exists v : JsVal,
    getServiceStatus bare_service (mkProcessEnv None None) no_python_env = Settled (Ok v) /\
    keys v <> ["subprocessAvailable"; "remoteConfigured"; "mockModeActive"] /\
    get v "mockModeActive" = Ok JUndefined /\
    get v "overallConfigured" = Ok (JBool false).
Proof.
  eexists. split; [reflexivity|]. split; [discriminate|]. split; reflexivity.
Qed.

Lemma service_status_fields_witness :
  exists v : JsVal,
    getServiceStatus bare_service (mkProcessEnv None None) no_python_env = Settled (Ok v) /\
    keys v = ["preferredService"; "pythonService"; "openaiConfigured"; "overallConfigured"].
Proof.
  destruct (service_status_fields bare_service (mkProcessEnv None None) no_python_env false
              eq_refl) as (v & ps & Hv & Hkeys & _).
  exists v. split; assumption.
Defined.

(** C2 as stated fails: with no backend configured at all (no API key,
    and a probe that finds the modules missing) the call fails with the
    subprocess strategy's error; no mock result is made up. *)
Lemma no_backend_fails_instead_of_mocking :
  isConfigured bare_service (mkProcessEnv None None) missing_module_env = Settled (Ok false) /\
  fst (transcribeAudio (rt := sample_runtime) bare_service
         (mkCallEnv missing_module_env unreachable_api sample_mock_env) (ABuffer [])
         no_options empty_state)
  = Rejected (Error ("Transcription failed: Python script failed with code 1: "
                     ++ "Traceback: ModuleNotFoundError: No module named 'whisper_timestamped'")) /\
  forall v : JsVal,
    fst (transcribeAudio (rt := sample_runtime) bare_service
           (mkCallEnv missing_module_env unreachable_api sample_mock_env) (ABuffer [])
           no_options empty_state) <> Resolved v.
Proof.
  split; [reflexivity|].
  assert (Hrun : fst (transcribeAudio (rt := sample_runtime) bare_service
                        (mkCallEnv missing_module_env unreachable_api sample_mock_env)
                        (ABuffer []) no_options empty_state)
                 = Rejected (Error ("Transcription failed: Python script failed with code 1: "
                                    ++ "Traceback: ModuleNotFoundError: No module named 'whisper_timestamped'")))
    by (vm_compute; reflexivity).
  split; [exact Hrun|]. intros v. rewrite Hrun. discriminate.
Qed.

Lemma selection_policy_witness :
  fst (transcribeAudio (rt := sample_runtime)
         (newTranscriptionService (rt := sample_runtime) (mkProcessEnv None None))
         boom_call (ABuffer []) no_options empty_state)
  = Rejected (Error ("Transcription failed: "
                     ++ message (Error "Python script failed with code 1: boom"))).
Proof.
  destruct (selection_policy (rt := sample_runtime) (mkProcessEnv None None) boom_call
              (ABuffer []) no_options empty_state) as (_ & _ & Hfail & _).
  destruct (Hfail (Error "Python script failed with code 1: boom")
              ltac:(vm_compute; reflexivity)) as [_ Hnokey].
  exact (Hnokey eq_refl).
Defined.

Lemma remote_failure_leaves_temp_file_witness :
  let run := transcribeAudio (rt := sample_runtime) keyed_service boom_call (ABuffer [])
               no_options empty_state in
  files empty_state = ∅ /\
  fst run = Rejected (Error "Transcription failed: Connection error.") /\
  "/srv/app/temp/temp_audio_1700000000250.wav" ∈ files (snd run) /\
  size (files (snd run)) = 1.
Proof.
  intros run.
  pose (python := python_transcribeAudio (rt := sample_runtime) (pythonService keyed_service)
                    boom_env (ABuffer []) no_options empty_state).
  assert (Hpy : python = (Rejected (Error "Python script failed with code 1: boom"),
                          snd python)) by (vm_compute; reflexivity).
  destruct (remote_failure_leaves_temp_file (rt := sample_runtime) keyed_service boom_call []
              no_options empty_state (snd python) _ (Error "Connection error.")
              eq_refl eq_refl Hpy eq_refl (fun _ => eq_refl)) as (Hrej & Hin & Hsize).
  split; [reflexivity|]. split; [exact Hrej|]. split; [exact Hin|].
  fold run in Hsize. rewrite Hsize; [vm_compute; reflexivity|].
  eapply (bool_decide_eq_false_1 _). vm_compute. reflexivity.
Defined.

(** * Further properties of the two services *)

(** ** What [trim] leaves *)

Lemma trim_start_as_list (s : string) :
  list_ascii_of_string (trim_start s) = drop_whitespace (list_ascii_of_string s).
Proof.
  induction s as [|c s IH]; [reflexivity|].
  cbn [trim_start list_ascii_of_string drop_whitespace].
  destruct (is_whitespace c); [exact IH | reflexivity].
Qed.

Lemma drop_whitespace_head (l : list ascii) (c : ascii) (rest : list ascii) :
  drop_whitespace l = c :: rest -> is_whitespace c = false.
Proof.
  induction l as [|d l IH]; [discriminate|].
  cbn [drop_whitespace]. destruct (is_whitespace d) eqn:Hd; [exact IH|].
  intros [= <- _]. exact Hd.
Qed.

Lemma drop_whitespace_keeps_last (l : list ascii) (c : ascii) :
  is_whitespace c = false ->
  drop_whitespace (l ++ [c])%list = (drop_whitespace l ++ [c])%list.
Proof.
  intros Hc. induction l as [|d l IH]; cbn [app drop_whitespace].
  - rewrite Hc. reflexivity.
  - destruct (is_whitespace d); [exact IH | reflexivity].
Qed.

Lemma trim_as_list (s : string) :
  list_ascii_of_string (trim s)
  = List.rev (drop_whitespace (List.rev (drop_whitespace (list_ascii_of_string s)))).
Proof.
  unfold trim, reverse.
  rewrite list_ascii_of_string_of_list_ascii, trim_start_as_list,
    list_ascii_of_string_of_list_ascii, trim_start_as_list.
  reflexivity.
Qed.

Lemma trimmed_list_ends (l : list ascii) :
  let t := List.rev (drop_whitespace (List.rev (drop_whitespace l))) in
  (forall c rest, t = c :: rest -> is_whitespace c = false) /\
  (forall c front, t = (front ++ [c])%list -> is_whitespace c = false).
Proof.
  intros t. subst t. split.
  - intros c rest Ht.
    destruct (drop_whitespace l) as [|d u] eqn:Hu; [discriminate|].
    pose proof (drop_whitespace_head _ _ _ Hu) as Hd.
    cbn [List.rev] in Ht. rewrite (drop_whitespace_keeps_last _ _ Hd) in Ht.
    rewrite rev_app_distr in Ht. cbn in Ht. injection Ht as <- _. exact Hd.
  - intros c front Ht.
    apply (f_equal (@List.rev ascii)) in Ht.
    rewrite rev_involutive, rev_app_distr in Ht. cbn in Ht.
    exact (drop_whitespace_head _ _ _ Ht).
Qed.

Section FurtherProperties.

Context {rt : Runtime}.

(** ** The subprocess strategy *)

(** X1. With [outputFormat: 'markdown'] a clean exit always resolves,
    whatever the child printed and whatever [JSON.parse] would make of it:
    the text is the output without white space at either end, and the
    speakers and segments are empty. *)
Theorem markdown_mode_always_resolves (this : PythonTranscriptionService)
    (env : SubprocessEnv) (audioBuffer : Audio) (options : Options) (st st1 : State)
    (tempFilePath stdout stderr : string) :
  saveAudioBuffer this env audioBuffer st = (Ok tempFilePath, st1) ->
  spawn env "python3" (python_args this tempFilePath options)
    = ProcClose (Some 0%Z) stdout stderr ->
  outputFormat options = Some "markdown" ->
  exists (v : JsVal) (text : string),
    fst (python_transcribeAudio this env audioBuffer options st) = Resolved v /\
    get v "text" = Ok (JStr text) /\
    text = trim stdout /\
    (forall c rest, text = String c rest -> is_whitespace c = false) /\
    (forall c front, text = front ++ String c EmptyString -> is_whitespace c = false) /\
    get v "speakers" = Ok (JArr []) /\
    get v "segments" = Ok (JArr []).
Proof.
  intros Hsave Hspawn Hfmt.
  exists (markdown_result (JStr (trim stdout))), (trim stdout).
  split.
  { unfold python_transcribeAudio, on_close, parsePythonOutput.
    rewrite Hsave, Hspawn, Hfmt. reflexivity. }
  split; [reflexivity|]. split; [reflexivity|].
  destruct (trimmed_list_ends (list_ascii_of_string stdout)) as [Hhead Hlast].
  rewrite <- trim_as_list in Hhead, Hlast.
  split; [|split; [|split; reflexivity]].
  - intros c rest Ht. apply (Hhead c (list_ascii_of_string rest)).
    rewrite Ht. reflexivity.
  - intros c front Ht. apply (Hlast c (list_ascii_of_string front)).
    rewrite Ht. clear. induction front as [|d front IH]; [reflexivity|].
    cbn [append list_ascii_of_string app]. rewrite <- IH. reflexivity.
Qed.

Lemma cleanup_removes (env : SubprocessEnv) (p : string) (st : State) :
  unlink_error env = None ->
  files (cleanupTempFile env p st) = files st ∖ {[ p ]}.
Proof.
  intros Hunlink. unfold cleanupTempFile. rewrite Hunlink.
  destruct (decide (p ∈ files st)) as [Hin|Hout]; cbn [files remove_file].
  - reflexivity.
  - set_solver.
Qed.

Lemma cleanup_frame (env : SubprocessEnv) (p x : string) (st : State) :
  x <> p -> (x ∈ files (cleanupTempFile env p st) <-> x ∈ files st).
Proof.
  intros Hne. unfold cleanupTempFile.
  destruct (decide (p ∈ files st)); [|reflexivity].
  destruct (unlink_error env); cbn [files remove_file console_warn]; set_solver.
Qed.

Lemma parsePythonOutput_outcome (output : string) (fmt : option string) (st st' : State) :
  fst (parsePythonOutput output fmt st) = fst (parsePythonOutput output fmt st').
Proof.
  unfold parsePythonOutput.
  destruct (String.eqb _ "markdown"); [reflexivity|].
  destruct (JSON_parse output); reflexivity.
Qed.

(** What the ['close'] listener settles the promise with does not depend
    on the state, and it always settles it. *)
Lemma on_close_outcome (options : Options) (code : option Z) (stdout stderr : string)
    (st st' : State) :
  fst (on_close options code stdout stderr st) = fst (on_close options code stdout stderr st').
Proof.
  unfold on_close. destruct (negb (is_zero code)); [reflexivity|].
  pose proof (parsePythonOutput_outcome stdout (outputFormat options) st st') as Hparse.
  destruct (parsePythonOutput stdout (outputFormat options) st) as [[result|e] s];
    destruct (parsePythonOutput stdout (outputFormat options) st') as [[result'|e'] s'];
    cbn [fst] in Hparse; try discriminate; injection Hparse as <-; [|reflexivity].
  destruct (match outputFormat options with Some f => String.eqb f "markdown" | None => false end);
    [reflexivity|].
  destruct (structured_result result); reflexivity.
Qed.

Lemma on_close_settles (options : Options) (code : option Z) (stdout stderr : string)
    (st : State) :
  (exists v, fst (on_close options code stdout stderr st) = Resolved v) \/
  (exists e, fst (on_close options code stdout stderr st) = Rejected e).
Proof.
  unfold on_close. destruct (negb (is_zero code)); [right; eexists; reflexivity|].
  destruct (parsePythonOutput stdout (outputFormat options) st) as [[result|e] s];
    [|right; eexists; reflexivity].
  destruct (match outputFormat options with Some f => String.eqb f "markdown" | None => false end);
    [left; eexists; reflexivity|].
  destruct (structured_result result); [left | right]; eexists; reflexivity.
Qed.

Lemma on_close_console (options : Options) (code : option Z) (stdout stderr : string)
    (st : State) (entry : Level * list string) :
  In entry (console st) -> In entry (console (snd (on_close options code stdout stderr st))).
Proof.
  intros Hin. unfold on_close.
  destruct (negb (is_zero code)).
  { cbn [snd console console_error]. apply in_or_app. left. exact Hin. }
  unfold parsePythonOutput.
  destruct (String.eqb _ "markdown").
  { destruct (match outputFormat options with Some f => String.eqb f "markdown" | None => false end);
      [|destruct (structured_result _)]; exact Hin. }
  destruct (JSON_parse stdout) as [result|perr].
  { destruct (match outputFormat options with Some f => String.eqb f "markdown" | None => false end);
      [|destruct (structured_result _)]; exact Hin. }
  cbn [snd console console_error]. apply in_or_app. left. apply in_or_app. left. exact Hin.
Qed.

(** What is on disk and in the log has no part in the outcome of the
    subprocess strategy, and neither has the fate of the unlink. *)
Lemma python_outcome_ignores_disk_and_unlink (this : PythonTranscriptionService)
    (env : SubprocessEnv) (audioBuffer : Audio) (options : Options) (st st' : State)
    (msg : string) :
  fst (python_transcribeAudio this env audioBuffer options st)
  = fst (python_transcribeAudio this env audioBuffer options st') /\
  fst (python_transcribeAudio this (with_unlink_error msg env) audioBuffer options st)
  = fst (python_transcribeAudio this env audioBuffer options st).
Proof.
  unfold python_transcribeAudio, saveAudioBuffer, with_unlink_error.
  cbn [now random_suffix writeFile_error spawn unlink_error].
  destruct audioBuffer as [|bytes]; [split; reflexivity|].
  destruct (writeFile_error env); [split; reflexivity|].
  destruct (spawn env "python3" _) as [e|m code first raced|code out err|];
    [split; reflexivity | | | split; reflexivity].
  - destruct first; [split; reflexivity|]. split; apply on_close_outcome.
  - split; apply on_close_outcome.
Qed.

(** X2. When the unlink fails and the child has come to an end, the call
    still settles as it would have, the file stays where it was written,
    and the failure is only warned about. *)
Theorem failed_unlink_is_only_warned (this : PythonTranscriptionService)
    (env : SubprocessEnv) (bytes : list Byte.byte) (options : Options) (st : State)
    (msg : string) :
  writeFile_error env = None ->
  (forall cmd args e, spawn env cmd args <> SpawnThrows e) ->
  (forall cmd args, spawn env cmd args <> ProcHangs) ->
  let run := python_transcribeAudio this (with_unlink_error msg env) (ABuffer bytes)
               options st in
  fst run = fst (python_transcribeAudio this env (ABuffer bytes) options st) /\
  python_temp_path this env ∈ files (snd run) /\
  In (LWarn, ["Failed to cleanup temp file " ++ python_temp_path this env ++ ":"; msg])
     (console (snd run)).
Proof.
  intros Hwrite Hstarted Hends run.
  split.
  { exact (proj2 (python_outcome_ignores_disk_and_unlink this env (ABuffer bytes) options
                    st st msg)). }
  set (env' := with_unlink_error msg env) in *.
  assert (Hwrite' : writeFile_error env' = None) by exact Hwrite.
  assert (Hpath : python_temp_path this env' = python_temp_path this env) by reflexivity.
  unfold run, python_transcribeAudio, saveAudioBuffer. rewrite Hwrite'.
  fold (python_temp_path this env'). rewrite Hpath.
  change (spawn env') with (spawn env).
  set (p := python_temp_path this env).
  set (warning := (LWarn, ["Failed to cleanup temp file " ++ p ++ ":"; msg])).
  assert (Hin : p ∈ files (create_file p st)) by (cbn [files create_file]; set_solver).
  assert (Hclean : cleanupTempFile env' p (create_file p st)
                   = console_warn ["Failed to cleanup temp file " ++ p ++ ":"; msg]
                                  (create_file p st)).
  { unfold cleanupTempFile. change (unlink_error env') with (Some msg).
    destruct (decide (p ∈ files (create_file p st))); [reflexivity | contradiction]. }
  assert (Hunlinked : unlinked env' p (create_file p st) = create_file p st).
  { unfold unlinked. change (unlink_error env') with (Some msg).
    destruct (decide (p ∈ files (create_file p st))); reflexivity. }
  assert (Hwarning : forall raced l, cleanup_warning env' p raced l (create_file p st)
                                     = [warning]).
  { intros raced l. unfold cleanup_warning. change (unlink_error env') with (Some msg).
    destruct (decide (p ∈ files (create_file p st))); [reflexivity | contradiction]. }
  destruct (spawn env "python3" _) as [e|m code first raced|code out err|] eqn:Hspawn.
  - exfalso. exact (Hstarted _ _ _ Hspawn).
  - rewrite !Hwarning, Hunlinked. destruct first.
    + cbn [snd files console console_log]. split; [exact Hin|].
      apply in_or_app. right. left. reflexivity.
    + rewrite on_close_files. split; [exact Hin|].
      apply on_close_console. cbn [console console_log].
      apply in_or_app. right. left. reflexivity.
  - rewrite Hclean, on_close_files. split; [exact Hin|].
    apply on_close_console. cbn [console console_warn].
    apply in_or_app. right. left. reflexivity.
  - exfalso. exact (Hends _ _ Hspawn).
Qed.

(** X3. When the buffer was written, the child was started and has come to
    an end, and the unlink goes through, the subprocess strategy leaves the
    directory without the path it used: unchanged if the name was fresh,
    and short of the file that had that name if it was taken. *)
Theorem python_removes_its_temp_path (this : PythonTranscriptionService)
    (env : SubprocessEnv) (bytes : list Byte.byte) (options : Options) (st : State) :
  writeFile_error env = None ->
  unlink_error env = None ->
  (forall cmd args e, spawn env cmd args <> SpawnThrows e) ->
  (forall cmd args, spawn env cmd args <> ProcHangs) ->
  files (snd (python_transcribeAudio this env (ABuffer bytes) options st))
  = files st ∖ {[ python_temp_path this env ]}.
Proof.
  intros Hwrite Hunlink Hstarted Hends.
  unfold python_transcribeAudio, saveAudioBuffer. rewrite Hwrite.
  fold (python_temp_path this env). set (p := python_temp_path this env).
  rewrite python_files_after_events by (intros; first [apply Hstarted | apply Hends]).
  rewrite (cleanup_removes _ _ _ Hunlink). cbn [files create_file]. set_solver.
Qed.

(** ** The remote strategy *)

Lemma openai_outcome_any_state (this : TranscriptionService) (env : RemoteEnv)
    (audioBuffer : Audio) (options : Options) (st st' : State) :
  fst (transcribeWithOpenAI this env audioBuffer options st)
  = fst (transcribeWithOpenAI this env audioBuffer options st').
Proof.
  unfold transcribeWithOpenAI, openai_attempt.
  destruct (match audioBuffer with ANull => _ | ABuffer _ => _ end); [reflexivity|].
  destruct (negb (useOpenAI this)); [reflexivity|].
  destruct (create env _) as [response|e]; [|reflexivity].
  destruct (unlinkSync_error env); [reflexivity|].
  destruct (bind (get response "text") _); reflexivity.
Qed.

Lemma openai_files_frame (this : TranscriptionService) (env : RemoteEnv)
    (audioBuffer : Audio) (options : Options) (st : State) (x : string) :
  x <> remote_temp_path env ->
  (x ∈ files (snd (transcribeWithOpenAI this env audioBuffer options st)) <-> x ∈ files st).
Proof.
  intros Hne. unfold transcribeWithOpenAI, openai_attempt.
  fold (remote_temp_path env). set (p := remote_temp_path env) in *.
  destruct (match audioBuffer with ANull => _ | ABuffer _ => _ end) as [failure|].
  { destruct (file_created failure); cbn; set_solver. }
  destruct (negb (useOpenAI this)); [cbn; set_solver|].
  destruct (create env _) as [response|e]; [|cbn; set_solver].
  destruct (unlinkSync_error env); [cbn; set_solver|].
  destruct (bind (get response "text") _); cbn; set_solver.
Qed.

(** X4. Once the API has answered and the unlink goes through, the remote
    strategy has removed the file it wrote, whether the answer was usable
    or not. *)
Theorem remote_cleans_up_after_an_answer (this : TranscriptionService) (env : RemoteEnv)
    (bytes : list Byte.byte) (options : Options) (st : State) (response : JsVal) :
  useOpenAI this = true ->
  writeFileSync_error env = None ->
  create env (mkRequest (remote_temp_path env) "whisper-1"
                        (default "en" (language options))
                        (default "json" (responseFormat options))
                        (default 0%Q (temperature options))) = Ok response ->
  unlinkSync_error env = None ->
  files (snd (transcribeWithOpenAI this env (ABuffer bytes) options st))
  = files st ∖ {[ remote_temp_path env ]}.
Proof.
  intros Hkey Hwrite Hcreate Hunlink.
  unfold transcribeWithOpenAI, openai_attempt. fold (remote_temp_path env).
  rewrite Hwrite, Hkey, Hcreate, Hunlink. cbn [negb].
  destruct (bind (get response "text") _); cbn [snd files console_error remove_file create_file];
    set_solver.
Qed.



(** ** The selector *)

Lemma python_files_frame (this : PythonTranscriptionService) (env : SubprocessEnv)
    (audioBuffer : Audio) (options : Options) (st : State) (x : string) :
  x <> python_temp_path this env ->
  (x ∈ files (snd (python_transcribeAudio this env audioBuffer options st)) <-> x ∈ files st).
Proof.
  intros Hne. unfold python_transcribeAudio, saveAudioBuffer.
  fold (python_temp_path this env). set (p := python_temp_path this env) in *.
  destruct audioBuffer as [|bytes]; [reflexivity|].
  destruct (writeFile_error env) as [failure|].
  { destruct (file_created failure); cbn [snd files create_file]; set_solver. }
  assert (Hcreate : x ∈ files (create_file p st) <-> x ∈ files st)
    by (cbn [files create_file]; set_solver).
  assert (Hclean : x ∈ files (cleanupTempFile env p (create_file p st)) <-> x ∈ files st).
  { rewrite (cleanup_frame env p x _ Hne). exact Hcreate. }
  destruct (spawn env "python3" _) as [e|m code first raced|code out err|].
  - exact Hcreate.
  - destruct first; [|rewrite on_close_files]; cbn [snd files console_log];
      rewrite unlinked_files; exact Hclean.
  - rewrite on_close_files. exact Hclean.
  - exact Hcreate.
Qed.

Lemma python_never_unsettled (this : PythonTranscriptionService) (env : SubprocessEnv)
    (audioBuffer : Audio) (options : Options) (st : State) (e : JsError) :
  fst (python_transcribeAudio this env audioBuffer options st) <> Unsettled e.
Proof.
  assert (Hclose : forall code out err s, fst (on_close options code out err s) <> Unsettled e).
  { intros code out err s Hun.
    destruct (on_close_settles options code out err s) as [[v Hv] | [e' He']];
      congruence. }
  unfold python_transcribeAudio.
  destruct (saveAudioBuffer this env audioBuffer st) as [[p|e0] st1]; [|discriminate].
  destruct (spawn env "python3" _) as [e0|m code first raced|code out err|];
    try discriminate.
  - destruct first; [discriminate | apply Hclose].
  - apply Hclose.
Qed.

(** The subprocess strategy is left pending exactly when the buffer was
    written and the child never ends. *)
Lemma python_pending_iff (this : PythonTranscriptionService) (env : SubprocessEnv)
    (audioBuffer : Audio) (options : Options) (st : State) :
  fst (python_transcribeAudio this env audioBuffer options st) = Pending <->
  (exists bytes, audioBuffer = ABuffer bytes) /\
  writeFile_error env = None /\
  spawn env "python3" (python_args this (python_temp_path this env) options) = ProcHangs.
Proof.
  assert (Hclose : forall code out err s, fst (on_close options code out err s) <> Pending).
  { intros code out err s Hun.
    destruct (on_close_settles options code out err s) as [[v Hv] | [e' He']];
      congruence. }
  unfold python_transcribeAudio, saveAudioBuffer. fold (python_temp_path this env).
  destruct audioBuffer as [|bytes].
  { split; [discriminate | intros ([bytes [=]] & _)]. }
  destruct (writeFile_error env) as [failure|].
  { split; [discriminate | intros (_ & [=] & _)]. }
  destruct (spawn env "python3" _) as [e0|m code first raced|code out err|].
  - split; [discriminate | intros (_ & _ & [=])].
  - split; [|intros (_ & _ & [=])].
    destruct first; [discriminate | intros Hp; exfalso; exact (Hclose _ _ _ _ Hp)].
  - split; [|intros (_ & _ & [=])].
    intros Hp; exfalso; exact (Hclose _ _ _ _ Hp).
  - split; [intros _; eauto | reflexivity].
Qed.

Lemma openai_settles (this : TranscriptionService) (env : RemoteEnv)
    (audioBuffer : Audio) (options : Options) (st : State) :
  (exists v, fst (transcribeWithOpenAI this env audioBuffer options st) = Resolved v) \/
  (exists e, fst (transcribeWithOpenAI this env audioBuffer options st) = Rejected e).
Proof.
  unfold transcribeWithOpenAI.
  destruct (openai_attempt this env audioBuffer options st) as [[v|e0] s];
    [left | right]; eexists; reflexivity.
Qed.

Lemma attempt_outcome_any_state (this : TranscriptionService) (env : CallEnv)
    (audioBuffer : Audio) (options : Options) (st st' : State) :
  fst (transcribeAudio_attempt this env audioBuffer options st)
  = fst (transcribeAudio_attempt this env audioBuffer options st').
Proof.
  unfold transcribeAudio_attempt.
  destruct (String.eqb (preferredService this) "python").
  - pose proof (proj1 (python_outcome_ignores_disk_and_unlink (pythonService this)
                         (sub_env env) audioBuffer options st st' EmptyString)) as Hpy.
    destruct (python_transcribeAudio _ _ _ _ st) as [o1 s1].
    destruct (python_transcribeAudio _ _ _ _ st') as [o1' s1'].
    cbn [fst] in Hpy. subst o1'. destruct o1 as [v|pe|pe|]; try reflexivity.
    destruct (useOpenAI this); [|reflexivity].
    apply openai_outcome_any_state.
  - destruct (useOpenAI this); [|reflexivity].
    apply openai_outcome_any_state.
Qed.

Lemma transcribeAudio_outcome (this : TranscriptionService) (env : CallEnv)
    (audioBuffer : Audio) (options : Options) (st : State) :
  fst (transcribeAudio this env audioBuffer options st)
  = match fst (transcribeAudio_attempt this env audioBuffer options st) with
    | Rejected error => Rejected (Error ("Transcription failed: " ++ message error))
    | settled => settled
    end.
Proof.
  unfold transcribeAudio.
  destruct (transcribeAudio_attempt this env audioBuffer options st) as [[v|e|e|] s];
    reflexivity.
Qed.

(** The two ways for the block of the selector not to settle. *)
Lemma attempt_never_settles (this : TranscriptionService) (env : CallEnv)
    (audioBuffer : Audio) (options : Options) (st : State) :
  ((exists e, fst (transcribeAudio_attempt this env audioBuffer options st) = Unsettled e) <->
   preferredService this <> "python" /\ useOpenAI this = false /\ audioBuffer = ANull) /\
  (fst (transcribeAudio_attempt this env audioBuffer options st) = Pending <->
   preferredService this = "python" /\
   (exists bytes, audioBuffer = ABuffer bytes) /\
   writeFile_error (sub_env env) = None /\
   spawn (sub_env env) "python3"
     (python_args (pythonService this)
        (python_temp_path (pythonService this) (sub_env env)) options) = ProcHangs).
Proof.
  unfold transcribeAudio_attempt.
  destruct (String.eqb_spec (preferredService this) "python") as [Heq|Hne].
  - pose proof (python_never_unsettled (pythonService this) (sub_env env) audioBuffer
                  options st) as Hun.
    pose proof (python_pending_iff (pythonService this) (sub_env env) audioBuffer
                  options st) as Hpend.
    destruct (python_transcribeAudio _ _ _ _ _) as [[v|pe|pe|] s1]; cbn [fst] in *.
    + split; [split; [intros [e [=]] | intros (Hpref & _); contradiction]|].
      split; [discriminate | intros (_ & Hrest)]. apply Hpend. exact Hrest.
    + split.
      * split; [|intros (Hpref & _); contradiction].
        intros [e He]. exfalso.
        destruct (if useOpenAI this then _ else _) as [o s2] eqn:Ho.
        cbn [fst] in He. subst o.
        destruct (useOpenAI this).
        -- destruct (openai_settles this (remote_env env) audioBuffer options
                       (console_warn
                          ["⚠️ Python pipeline failed, falling back to OpenAI:";
                           message pe] s1)) as [[v Hv] | [e' He']];
             rewrite Ho in *; discriminate.
        -- discriminate.
      * split; [|intros (_ & Hrest); apply Hpend in Hrest; discriminate].
        intros He. exfalso.
        destruct (if useOpenAI this then _ else _) as [o s2] eqn:Ho.
        cbn [fst] in He. subst o.
        destruct (useOpenAI this).
        -- destruct (openai_settles this (remote_env env) audioBuffer options
                       (console_warn
                          ["⚠️ Python pipeline failed, falling back to OpenAI:";
                           message pe] s1)) as [[v Hv] | [e' He']];
             rewrite Ho in *; discriminate.
        -- discriminate.
    + exfalso. exact (Hun pe eq_refl).
    + split; [split; [intros [e [=]] | intros (Hpref & _); contradiction]|].
      split; [intros _ | reflexivity].
      split; [exact Heq | apply Hpend; reflexivity].
  - destruct (useOpenAI this).
    + destruct (openai_settles this (remote_env env) audioBuffer options st)
        as [[v Hv] | [e' He']]; rewrite ?Hv, ?He';
        (split; [split; [intros [e [=]] | intros (_ & [=] & _)]|]);
        (split; [discriminate | intros (Hpref & _); contradiction]).
    + destruct audioBuffer as [|bytes]; cbn [fst snd getMockTranscription].
      * split; [split; [intros _; repeat split; assumption | intros _; eauto]|].
        split; [discriminate | intros (Hpref & _); contradiction].
      * split; [split; [intros [e [=]] | intros (_ & _ & [=])]|].
        split; [discriminate | intros (Hpref & _); contradiction].
Qed.

(** X9. The two ways for a call to the selector never to settle. It is
    left unsettled by a throwing callback exactly when it is the mock that
    runs, on a [null] buffer; and it waits for ever exactly when the Python
    pipeline is preferred, the buffer was written and the child never
    ends, the child being spawned without a timeout. In every other case
    the call resolves or is rejected. *)
Theorem calls_that_never_settle (this : TranscriptionService) (env : CallEnv)
    (audioBuffer : Audio) (options : Options) (st : State) :
  let run := transcribeAudio this env audioBuffer options st in
  let mock_on_null :=
    preferredService this <> "python" /\ useOpenAI this = false /\ audioBuffer = ANull in
  let child_never_ends :=
    preferredService this = "python" /\
    (exists bytes, audioBuffer = ABuffer bytes) /\
    writeFile_error (sub_env env) = None /\
    spawn (sub_env env) "python3"
      (python_args (pythonService this)
         (python_temp_path (pythonService this) (sub_env env)) options) = ProcHangs in
  ((exists e, fst run = Unsettled e) <-> mock_on_null) /\
  (fst run = Pending <-> child_never_ends) /\
  (~ mock_on_null -> ~ child_never_ends ->
   (exists v, fst run = Resolved v) \/ (exists e, fst run = Rejected e)).
Proof.
  intros run mock_on_null child_never_ends.
  destruct (attempt_never_settles this env audioBuffer options st) as [Hun Hpend].
  fold mock_on_null in Hun. fold child_never_ends in Hpend.
  unfold run. rewrite transcribeAudio_outcome.
  destruct (fst (transcribeAudio_attempt this env audioBuffer options st)) as [v|e|e|].
  - split; [split; [intros [e [=]] | intros H; apply Hun in H; destruct H as [e [=]]]|].
    split; [split; [discriminate | intros H; apply Hpend in H; discriminate]|].
    intros _ _. left. eauto.
  - split; [split; [intros [e' [=]] | intros H; apply Hun in H; destruct H as [e' [=]]]|].
    split; [split; [discriminate | intros H; apply Hpend in H; discriminate]|].
    intros _ _. right. eauto.
  - split; [split; [intros _; apply Hun; eauto | intros _; eauto]|].
    split; [split; [discriminate | intros H; apply Hpend in H; discriminate]|].
    intros Hno _. exfalso. apply Hno, Hun. eauto.
  - split; [split; [intros [e [=]] | intros H; apply Hun in H; destruct H as [e [=]]]|].
    split; [split; [intros _; apply Hpend; reflexivity | reflexivity]|].
    intros _ Hno. exfalso. apply Hno, Hpend. reflexivity.
Qed.

(** X10. A call to the selector touches no file but the two it may write:
    every other path is on disk afterwards exactly if it was before,
    however the call ends. *)
Theorem other_files_are_left_alone (this : TranscriptionService) (env : CallEnv)
    (audioBuffer : Audio) (options : Options) (st : State) (x : string) :
  x <> python_temp_path (pythonService this) (sub_env env) ->
  x <> remote_temp_path (remote_env env) ->
  (x ∈ files (snd (transcribeAudio this env audioBuffer options st)) <-> x ∈ files st).
Proof.
  intros Hpy Hre.
  assert (Hattempt : x ∈ files (snd (transcribeAudio_attempt this env audioBuffer options st))
                     <-> x ∈ files st).
  { unfold transcribeAudio_attempt.
    pose proof (python_files_frame (pythonService this) (sub_env env) audioBuffer options st
                  x Hpy) as Hframe.
    destruct (String.eqb (preferredService this) "python").
    - destruct (python_transcribeAudio _ _ _ _ _) as [[v|pe|pe|] s1]; cbn [snd] in *;
        try exact Hframe.
      destruct (useOpenAI this); [|exact Hframe].
      rewrite (openai_files_frame this (remote_env env) audioBuffer options _ x Hre).
      exact Hframe.
    - destruct (useOpenAI this); [|reflexivity].
      apply openai_files_frame, Hre. }
  unfold transcribeAudio.
  destruct (transcribeAudio_attempt this env audioBuffer options st) as [[v|err|err|] s];
    exact Hattempt.
Qed.

(** ** Batches *)

Lemma batch_loop_entries (call : nat -> Audio -> State -> Outcome * State) :
  (forall j a s s', fst (call j a s) = fst (call j a s')) ->
  forall (audioBuffers : list Audio) (i : nat) (results : list JsVal) (st : State),
    (forall k a s, audioBuffers !! k = Some a ->
                   (exists v, fst (call (i + k)%nat a s) = Resolved v) \/
                   (exists e, fst (call (i + k)%nat a s) = Rejected e)) ->
    exists new : list JsVal,
      fst (batch_loop call i audioBuffers results st) = Resolved (JArr (results ++ new)%list) /\
      List.length new = List.length audioBuffers /\
      forall k a s,
        audioBuffers !! k = Some a ->
        (forall v, fst (call (i + k)%nat a s) = Resolved v ->
                   new !! k = Some (JObj [("success", JBool true); ("result", v)])) /\
        (forall e, fst (call (i + k)%nat a s) = Rejected e ->
                   new !! k = Some (JObj [("success", JBool false);
                                          ("error", JStr (message e))])).
Proof.
  intros Hany audioBuffers.
  induction audioBuffers as [|a rest IH]; intros i results st Hsettles.
  - exists []. cbn [batch_loop fst]. rewrite app_nil_r.
    split; [reflexivity|]. split; [reflexivity|]. intros k a s Hk. discriminate.
  - assert (Hrest : forall k b s, rest !! k = Some b ->
                      (exists v, fst (call (S i + k)%nat b s) = Resolved v) \/
                      (exists e, fst (call (S i + k)%nat b s) = Rejected e)).
    { intros k b s Hk. replace (S i + k)%nat with (i + S k)%nat by lia.
      apply Hsettles. exact Hk. }
    assert (Hhere : forall s, fst (call (i + 0)%nat a s) = fst (call i a st)).
    { intros s. rewrite Nat.add_0_r. apply Hany. }
    pose proof (Hsettles 0%nat a st eq_refl) as Hfirst. rewrite Hhere in Hfirst.
    cbn [batch_loop].
    destruct (call i a st) as [[v|e|e|] st1] eqn:Hcall; cbn [fst] in Hhere, Hfirst.
    + destruct (IH (S i) (results ++ [JObj [("success", JBool true); ("result", v)]])%list
                  st1 Hrest) as (new & Hrun & Hlen & Hentries).
      exists (JObj [("success", JBool true); ("result", v)] :: new).
      split; [rewrite Hrun, <- app_assoc; reflexivity|].
      split; [cbn [List.length]; rewrite Hlen; reflexivity|].
      intros [|k] b s Hk.
      * injection Hk as <-. rewrite Hhere. split; [intros v' [= <-]; reflexivity|].
        intros e [=].
      * replace (i + S k)%nat with (S i + k)%nat by lia. apply Hentries. exact Hk.
    + destruct (IH (S i) (results ++ [JObj [("success", JBool false);
                                            ("error", JStr (message e))]])%list
                  st1 Hrest) as (new & Hrun & Hlen & Hentries).
      exists (JObj [("success", JBool false); ("error", JStr (message e))] :: new).
      split; [rewrite Hrun, <- app_assoc; reflexivity|].
      split; [cbn [List.length]; rewrite Hlen; reflexivity|].
      intros [|k] b s Hk.
      * injection Hk as <-. rewrite Hhere. split; [intros v' [=]|].
        intros e' [= <-]. reflexivity.
      * replace (i + S k)%nat with (S i + k)%nat by lia. apply Hentries. exact Hk.
    + exfalso. destruct Hfirst as [[v [=]] | [e' [=]]].
    + exfalso. destruct Hfirst as [[v [=]] | [e' [=]]].
Qed.

(** X11. A batch on the Python bridge whose children all come to an end
    never fails as a whole: it resolves with one entry per buffer, in the
    order of the buffers, a success entry with the result where the call
    resolved and a failure entry with the error's message where it was
    rejected; the calls after a failure are still made. A child that
    never ends leaves the batch waiting at its buffer. *)
Theorem python_batch_reports_every_buffer (this : PythonTranscriptionService)
    (envs : nat -> SubprocessEnv) (audioBuffers : list Audio) (options : Options)
    (st : State) :
  (forall k a, audioBuffers !! k = Some a ->
               spawn (envs k) "python3"
                 (python_args this (python_temp_path this (envs k)) options) <> ProcHangs) ->
  exists results : list JsVal,
    fst (python_transcribeBatch this envs audioBuffers options st) = Resolved (JArr results) /\
    List.length results = List.length audioBuffers /\
    forall k a s,
      audioBuffers !! k = Some a ->
      (forall v, fst (python_transcribeAudio this (envs k) a options s) = Resolved v ->
                 results !! k = Some (JObj [("success", JBool true); ("result", v)])) /\
      (forall e, fst (python_transcribeAudio this (envs k) a options s) = Rejected e ->
                 results !! k = Some (JObj [("success", JBool false);
                                            ("error", JStr (message e))])).
Proof.
  intros Hends. unfold python_transcribeBatch.
  destruct (batch_loop_entries
              (fun i audioBuffer => python_transcribeAudio this (envs i) audioBuffer options)
              (fun j a s s' => proj1 (python_outcome_ignores_disk_and_unlink this (envs j) a
                                        options s s' EmptyString))
              audioBuffers 0%nat [] st)
    as (new & Hrun & Hlen & Hentries).
  - intros k a s Hk. cbn [Nat.add].
    pose proof (python_never_unsettled this (envs k) a options s) as Hun.
    pose proof (python_pending_iff this (envs k) a options s) as Hpend.
    destruct (fst (python_transcribeAudio this (envs k) a options s)) as [v|e|e|].
    + left. eauto.
    + right. eauto.
    + exfalso. exact (Hun e eq_refl).
    + exfalso. destruct (proj1 Hpend eq_refl) as (_ & _ & Hhang).
      exact (Hends k a Hk Hhang).
  - exists new. split; [exact Hrun|]. split; [exact Hlen|]. exact Hentries.
Qed.

(** X12. A batch on the selector resolves in the same way, one entry per
    buffer in order, whenever its calls settle: that is, when every child
    that is started comes to an end, and unless the mock is the strategy
    and a buffer is [null]. *)
Theorem batch_reports_every_buffer (this : TranscriptionService) (envs : nat -> CallEnv)
    (audioBuffers : list Audio) (options : Options) (st : State) :
  (preferredService this = "python" ->
   forall k a, audioBuffers !! k = Some a ->
               spawn (sub_env (envs k)) "python3"
                 (python_args (pythonService this)
                    (python_temp_path (pythonService this) (sub_env (envs k))) options)
               <> ProcHangs) ->
  preferredService this = "python" \/ useOpenAI this = true \/
  Forall (fun a => a <> ANull) audioBuffers ->
  exists results : list JsVal,
    fst (transcribeBatch this envs audioBuffers options st) = Resolved (JArr results) /\
    List.length results = List.length audioBuffers /\
    forall k a s,
      audioBuffers !! k = Some a ->
      (forall v, fst (transcribeAudio this (envs k) a options s) = Resolved v ->
                 results !! k = Some (JObj [("success", JBool true); ("result", v)])) /\
      (forall e, fst (transcribeAudio this (envs k) a options s) = Rejected e ->
                 results !! k = Some (JObj [("success", JBool false);
                                            ("error", JStr (message e))])).
Proof.
  intros Hends Hsettles. unfold transcribeBatch.
  destruct (batch_loop_entries
              (fun i audioBuffer => transcribeAudio this (envs i) audioBuffer options))
    with (audioBuffers := audioBuffers) (i := 0%nat) (results := @nil JsVal) (st := st)
    as (new & Hrun & Hlen & Hentries).
  - intros j a s s'. rewrite !transcribeAudio_outcome.
    rewrite (attempt_outcome_any_state this (envs j) a options s s'). reflexivity.
  - intros k a s Hk. cbn [Nat.add]. rewrite transcribeAudio_outcome.
    destruct (attempt_never_settles this (envs k) a options s) as [Hun Hpend].
    destruct (fst (transcribeAudio_attempt this (envs k) a options s)) as [v|e|e|].
    + left. eauto.
    + right. eauto.
    + exfalso. destruct (proj1 Hun (ex_intro _ e eq_refl)) as (Hpref & Hkey & Hnull).
      destruct Hsettles as [Hpy | [Hre | Hall]].
      * contradiction.
      * congruence.
      * rewrite Forall_forall in Hall. apply (Hall a); [|exact Hnull].
        eapply list_elem_of_lookup_2. exact Hk.
    + exfalso. destruct (proj1 Hpend eq_refl) as (Hpref & _ & _ & Hhang).
      exact (Hends Hpref k a Hk Hhang).
  - exists new. split; [exact Hrun|]. split; [exact Hlen|]. exact Hentries.
Qed.

(** ** The confidence heuristic, the mock and the probe *)

Lemma num_of_nat_le (n m : nat) : (n <= m)%nat -> (num_of_nat n <= num_of_nat m)%Q.
Proof.
  intros Hle. unfold num_of_nat. rewrite <- Zle_Qle. apply Nat2Z.inj_le. exact Hle.
Qed.

(** X13. For a text that is not empty the heuristic is
    [0.5 + min(length, 30)/100 + min(marks, 2)/10]: the clamp at 1 never
    cuts anything off, the value is at least 0.51, and it is 1 exactly for
    the texts of 30 characters or more with two punctuation marks or
    more. *)
Theorem confidence_closed_form (text : string) :
  text <> EmptyString ->
  exists c : Q,
    calculateConfidence (JStr text) = Ok c /\
    (c == 0.5 + num_of_nat (Nat.min (String.length text) 30) / 100
            + num_of_nat (Nat.min (punctuationMarkCount text) 2) / 10)%Q /\
    (0.51 <= c)%Q /\
    ((c == 1)%Q <->
     (30 <= String.length text)%nat /\ (2 <= punctuationMarkCount text)%nat).
Proof.
  intros Hne. destruct text as [|ch text]; [congruence|].
  exists (Qmin (0.5 + Qmin (num_of_nat (String.length (String ch text)) / 100) 0.3
                    + Qmin (num_of_nat (punctuationMarkCount (String ch text)) * 0.1) 0.2)
               1.0).
  split.
  { unfold calculateConfidence. rewrite match_punctuation_length. reflexivity. }
  set (len := String.length (String ch text)).
  set (cnt := punctuationMarkCount (String ch text)).
  assert (Hlen1 : (1 <= num_of_nat len)%Q)
    by (apply (num_of_nat_le 1 len); unfold len; cbn [String.length]; lia).
  pose proof (num_of_nat_nonneg cnt) as Hcnt0.
  assert (Hx : (num_of_nat len / 100 * 100 == num_of_nat len)%Q) by (field; discriminate).
  assert (Hm : (num_of_nat (Nat.min len 30) / 100 * 100 == num_of_nat (Nat.min len 30))%Q)
    by (field; discriminate).
  assert (Hp : (num_of_nat (Nat.min cnt 2) / 10 * 10 == num_of_nat (Nat.min cnt 2))%Q)
    by (field; discriminate).
  set (x := (num_of_nat len / 100)%Q) in *.
  set (m := (num_of_nat (Nat.min len 30) / 100)%Q) in *.
  set (q := (num_of_nat (Nat.min cnt 2) / 10)%Q) in *.
  assert (Hlen : ((30 <= len)%nat /\ (30 <= num_of_nat len)%Q /\
                  (num_of_nat (Nat.min len 30) == 30)%Q) \/
                 ((len < 30)%nat /\ (num_of_nat len <= 29)%Q /\
                  (num_of_nat (Nat.min len 30) == num_of_nat len)%Q)).
  { destruct (Nat.le_gt_cases 30 len) as [Hge|Hlt].
    - left. split; [exact Hge|]. split; [exact (num_of_nat_le 30 len Hge)|].
      rewrite Nat.min_r by exact Hge. reflexivity.
    - right. split; [exact Hlt|]. split; [apply (num_of_nat_le len 29); lia|].
      rewrite Nat.min_l by lia. reflexivity. }
  assert (Hcnt : ((2 <= cnt)%nat /\ (2 <= num_of_nat cnt)%Q /\
                  (num_of_nat (Nat.min cnt 2) == 2)%Q) \/
                 ((cnt < 2)%nat /\ (num_of_nat cnt <= 1)%Q /\
                  (num_of_nat (Nat.min cnt 2) == num_of_nat cnt)%Q)).
  { destruct (Nat.le_gt_cases 2 cnt) as [Hge|Hlt].
    - left. split; [exact Hge|]. split; [exact (num_of_nat_le 2 cnt Hge)|].
      rewrite Nat.min_r by exact Hge. reflexivity.
    - right. split; [exact Hlt|]. split; [apply (num_of_nat_le cnt 1); lia|].
      rewrite Nat.min_l by lia. reflexivity. }
  clearbody x m q. repeat name_min.
  destruct Hlen as [(Hl & Hlq & Hlm) | (Hl & Hlq & Hlm)];
    destruct Hcnt as [(Hc & Hcq & Hcm) | (Hc & Hcq & Hcm)];
    split_mins; (split; [lra|]); (split; [lra|]);
      (split; [intros Hone; first [split; lia | exfalso; lra]
              | intros [Hge30 Hge2]; first [lra | lia]]).
Qed.

(** X14. Whatever [Math.random] returns in [[0, 1)], the text of a mock
    result is one of the five canned sentences. *)
Theorem mock_text_is_canned (env : MockEnv) (bytes : list Byte.byte) (options : Options) :
  (0 <= random_index env < 1)%Q ->
  exists (v : JsVal) (text : string),
    snd (getMockTranscription env (ABuffer bytes) options) = Resolved v /\
    get v "text" = Ok (JStr text) /\
    In text mockResponses.
Proof.
  intros [Hlo Hhi].
  set (x := (random_index env * num_of_nat (List.length mockResponses))%Q).
  assert (Hx : (0 <= x < 5)%Q).
  { unfold x. change (num_of_nat (List.length mockResponses)) with (inject_Z 5).
    change (inject_Z 5) with 5%Q. split; lra. }
  pose proof (Qfloor_le x) as Hfl. pose proof (Qlt_floor x) as Hfu.
  assert (Hrange : (0 <= Qfloor x < 5)%Z).
  { split.
    - assert (Hpos : (inject_Z 0 < inject_Z (Qfloor x + 1))%Q).
      { change (inject_Z 0) with 0%Q. lra. }
      rewrite <- Zlt_Qlt in Hpos. lia.
    - assert (Hlt : (inject_Z (Qfloor x) < inject_Z 5)%Q).
      { change (inject_Z 5) with 5%Q. lra. }
      rewrite <- Zlt_Qlt in Hlt. exact Hlt. }
  assert (Hat : exists text, at_floor mockResponses x = JStr text /\ In text mockResponses).
  { unfold at_floor.
    assert (Hcases : Qfloor x = 0%Z \/ Qfloor x = 1%Z \/ Qfloor x = 2%Z \/
                     Qfloor x = 3%Z \/ Qfloor x = 4%Z) by lia.
    destruct Hcases as [-> | [-> | [-> | [-> | ->]]]];
      eexists; (split; [reflexivity|]); cbn; tauto. }
  destruct Hat as (text & Htext & Hin).
  eexists _, text. split; [reflexivity|]. split; [|exact Hin].
  cbn [get lookup_prop String.eqb Ascii.eqb Bool.eqb]. fold x. rewrite Htext. reflexivity.
Qed.

(** X15. [isConfigured] and the [overallConfigured] field of
    [getServiceStatus] never disagree: on the same machine the two resolve
    with the same boolean, or are rejected with the same error, or wait
    for ever together. *)
Theorem isConfigured_agrees_with_status (this : TranscriptionService) (penv : ProcessEnv)
    (env : SubprocessEnv) :
  (forall b : bool,
     isConfigured this penv env = Settled (Ok b) ->
     exists v : JsVal,
       getServiceStatus this penv env = Settled (Ok v) /\
       get v "overallConfigured" = Ok (JBool b)) /\
  (forall e : JsError,
     isConfigured this penv env = Settled (Throw e) ->
     getServiceStatus this penv env = Settled (Throw e)) /\
  (isConfigured this penv env = NeverSettles -> getServiceStatus this penv env = NeverSettles).
Proof.
  unfold isConfigured, getServiceStatus, getStatus.
  destruct (isAvailable env) as [[available|e0]|];
    cbn [await bind get lookup_prop String.eqb Ascii.eqb Bool.eqb].
  - split; [|split; discriminate]. intros b [= <-]. eexists. split; [reflexivity|].
    cbn [get lookup_prop String.eqb Ascii.eqb Bool.eqb]. rewrite js_or_bool. reflexivity.
  - split; [discriminate|]. split; [|discriminate]. intros e [= <-]. reflexivity.
  - split; [discriminate|]. split; [discriminate | reflexivity].
Qed.

(** X16. The probe calls the backend unavailable whenever the child's
    standard error mentions [ModuleNotFoundError] anywhere, exit code 0 or
    not, and whenever the child cannot be started; and then a service
    without an API key is reported as not configured. *)
Theorem probe_rejects_missing_modules (this : TranscriptionService) (penv : ProcessEnv)
    (env : SubprocessEnv) (code : option Z) (stdout before after : string) :
  (forall cmd args,
     spawn env cmd args
     = ProcClose code stdout (before ++ "ModuleNotFoundError" ++ after)) \/
  (exists msg errno first raced,
     forall cmd args, spawn env cmd args = ProcError msg errno first raced) ->
  isAvailable env = Settled (Ok false) /\
  (useOpenAI this = false -> isConfigured this penv env = Settled (Ok false)).
Proof.
  intros Hprobe.
  assert (Hav : isAvailable env = Settled (Ok false)).
  { unfold isAvailable. destruct Hprobe as [Hclose | (msg & errno & first & raced & Herr)].
    - rewrite Hclose, includes_app. cbn [negb]. rewrite andb_false_r. reflexivity.
    - rewrite Herr. reflexivity. }
  split; [exact Hav|]. intros Hno. unfold isConfigured. rewrite Hav, Hno. reflexivity.
Qed.

(** ** No file is left when nothing fails to be removed *)

Lemma openai_keeps_directory (this : TranscriptionService) (env : RemoteEnv)
    (audioBuffer : Audio) (options : Options) (st : State) :
  useOpenAI this = true ->
  (forall failure, writeFileSync_error env = Some failure -> file_created failure = false) ->
  (forall request, exists response, create env request = Ok response) ->
  unlinkSync_error env = None ->
  remote_temp_path env ∉ files st ->
  files (snd (transcribeWithOpenAI this env audioBuffer options st)) = files st.
Proof.
  intros Hkey Hwrite Hanswers Hunlink Hfresh.
  unfold transcribeWithOpenAI, openai_attempt. fold (remote_temp_path env).
  destruct audioBuffer as [|bytes]; [reflexivity|].
  destruct (writeFileSync_error env) as [failure|].
  { rewrite (Hwrite failure eq_refl). reflexivity. }
  rewrite Hkey. cbn [negb].
  destruct (Hanswers (mkRequest (remote_temp_path env) "whisper-1"
                                (default "en" (language options))
                                (default "json" (responseFormat options))
                                (default 0%Q (temperature options)))) as [response ->].
  rewrite Hunlink.
  destruct (bind (get response "text") _);
    cbn [snd files console_error remove_file create_file]; set_solver.
Qed.

(** X22. A call to a selector that prefers the Python pipeline leaves the
    directory as it found it, however it ends, provided that no write
    fails after it has created its file, that the child could be started
    and comes to an end, that the remote API answers when it is asked,
    that no unlink fails, and that the names of the temporary files were
    free. *)
Theorem directory_is_left_as_found (this : TranscriptionService) (env : CallEnv)
    (audioBuffer : Audio) (options : Options) (st : State) :
  preferredService this = "python" ->
  (forall failure,
     writeFile_error (sub_env env) = Some failure -> file_created failure = false) ->
  (forall failure,
     writeFileSync_error (remote_env env) = Some failure -> file_created failure = false) ->
  unlink_error (sub_env env) = None ->
  (forall cmd args e, spawn (sub_env env) cmd args <> SpawnThrows e) ->
  (forall cmd args, spawn (sub_env env) cmd args <> ProcHangs) ->
  (forall request, exists response, create (remote_env env) request = Ok response) ->
  unlinkSync_error (remote_env env) = None ->
  python_temp_path (pythonService this) (sub_env env) ∉ files st ->
  remote_temp_path (remote_env env) ∉ files st ->
  files (snd (transcribeAudio this env audioBuffer options st)) = files st.
Proof.
  intros Hpref Hwrite Hwrite' Hunlink Hstarted Hends Hanswers Hunlink' Hfresh Hfresh'.
  pose proof (python_keeps_directory (pythonService this) (sub_env env) audioBuffer options
                st Hwrite Hunlink Hstarted Hends Hfresh) as Hpy.
  assert (Hattempt : files (snd (transcribeAudio_attempt this env audioBuffer options st))
                     = files st).
  { unfold transcribeAudio_attempt. rewrite Hpref. cbn [String.eqb Ascii.eqb Bool.eqb].
    destruct (python_transcribeAudio _ _ _ _ _) as [[v|pe|pe|] s1]; cbn [snd] in *;
      try exact Hpy.
    destruct (useOpenAI this) eqn:Hkey; [|exact Hpy].
    rewrite (openai_keeps_directory this (remote_env env) audioBuffer options _ Hkey
               Hwrite' Hanswers Hunlink'); [exact Hpy|].
    cbn [files console_warn]. rewrite Hpy. exact Hfresh'. }
  unfold transcribeAudio.
  destruct (transcribeAudio_attempt this env audioBuffer options st) as [[v|err|err|] s];
    exact Hattempt.
Qed.

(** X26. When the child cannot be started, the listeners of ['error'] and
    of ['close'] both run. The promise is rejected by the one that goes on
    first: with ['Failed to start Python process: '] and the message of
    the spawn error if that is the ['error'] listener, and with the
    failure for the exit code, which is the error number, and an empty
    standard error if it is the ['close'] listener. Either way the file is
    removed when the unlink is not refused, and ['Python script error:']
    is written to the log: before the promise settles when the ['close']
    listener is first, and after it otherwise. *)
Theorem failed_spawn_runs_both_listeners (this : PythonTranscriptionService)
    (env : SubprocessEnv) (bytes : list Byte.byte) (options : Options) (st : State)
    (msg : string) (code : Z) (first : Listener) (raced : option (Listener * string)) :
  writeFile_error env = None ->
  spawn env "python3" (python_args this (python_temp_path this env) options)
    = ProcError msg code first raced ->
  code <> 0%Z ->
  let run := python_transcribeAudio this env (ABuffer bytes) options st in
  let later := python_afterwards this env (ABuffer bytes) options st in
  let entry := (LError, ["Python script error:"; EmptyString]) in
  fst run
  = Rejected (Error (match first with
                     | OnError => "Failed to start Python process: " ++ msg
                     | OnClose => "Python script failed with code " ++ show_Z code ++ ": "
                     end)) /\
  (unlink_error env = None -> files (snd run) = files st ∖ {[ python_temp_path this env ]}) /\
  match first with
  | OnError => last later = Some entry
  | OnClose => last (console (snd run)) = Some entry
  end.
Proof.
  intros Hwrite Hspawn Hcode run later entry.
  assert (Hnz : negb (is_zero (Some code)) = true).
  { cbn [is_zero]. destruct (Z.eqb_spec code 0); [contradiction | reflexivity]. }
  unfold run, later, python_afterwards, python_transcribeAudio, saveAudioBuffer.
  rewrite Hwrite. fold (python_temp_path this env). rewrite Hspawn.
  set (p := python_temp_path this env).
  assert (Hfiles : unlink_error env = None ->
                   files (unlinked env p (create_file p st)) = files st ∖ {[ p ]}).
  { intros Hunlink. rewrite unlinked_files, (cleanup_removes _ _ _ Hunlink).
    cbn [files create_file]. set_solver. }
  unfold on_close. rewrite Hnz.
  destruct first; cbn [fst snd files console console_log console_error show_code].
  - split; [reflexivity|]. split; [exact Hfiles|]. apply last_snoc.
  - split; [reflexivity|]. split; [exact Hfiles|]. apply last_snoc.
Qed.

(** ** Two more ways for a call to fail *)

(** X24. When [spawn] itself throws, the subprocess strategy rejects with
    that error as it is, and the file it had written stays on disk: this
    path has no cleanup. *)
Theorem throwing_spawn_leaves_the_file (this : PythonTranscriptionService)
    (env : SubprocessEnv) (bytes : list Byte.byte) (options : Options) (st : State)
    (e : JsError) :
  writeFile_error env = None ->
  spawn env "python3" (python_args this (python_temp_path this env) options) = SpawnThrows e ->
  let run := python_transcribeAudio this env (ABuffer bytes) options st in
  fst run = Rejected e /\
  python_temp_path this env ∈ files (snd run) /\
  console (snd run) = console st.
Proof.
  intros Hwrite Hspawn run. unfold run, python_transcribeAudio, saveAudioBuffer.
  rewrite Hwrite. fold (python_temp_path this env). rewrite Hspawn.
  cbn [fst snd files console create_file]. split; [reflexivity|].
  split; [set_solver | reflexivity].
Qed.

(** X25. A [null] buffer makes a selector that prefers the Python pipeline
    reject, API key or not, with the complaint of the file system about the
    data, and without any file having been written. *)
Theorem null_buffer_is_rejected (this : TranscriptionService) (env : CallEnv)
    (options : Options) (st : State) :
  preferredService this = "python" ->
  let run := transcribeAudio this env ANull options st in
  fst run = Rejected (Error ("Transcription failed: " ++ message invalid_data_error)) /\
  files (snd run) = files st.
Proof.
  intros Hpref run. unfold run, transcribeAudio, transcribeAudio_attempt.
  rewrite Hpref. cbn [String.eqb Ascii.eqb Bool.eqb].
  unfold python_transcribeAudio, saveAudioBuffer.
  destruct (useOpenAI this); [|split; reflexivity].
  unfold transcribeWithOpenAI, openai_attempt. split; reflexivity.
Qed.

End FurtherProperties.

(** ** Speaker statistics *)

Lemma Set_add_fold_elem (xs seen : list string) (x : string) :
  x ∈ fold_left Set_add xs seen <-> x ∈ seen \/ x ∈ xs.
Proof.
  revert seen. induction xs as [|y xs IH]; intros seen; cbn [fold_left].
  - set_solver.
  - rewrite IH. unfold Set_add. destruct (decide (y ∈ seen)); set_solver.
Qed.

Lemma Set_add_fold_NoDup (xs seen : list string) :
  NoDup seen -> NoDup (fold_left Set_add xs seen).
Proof.
  revert seen. induction xs as [|y xs IH]; intros seen Hseen; cbn [fold_left];
    [exact Hseen|].
  apply IH. unfold Set_add. destruct (decide (y ∈ seen)) as [|Hout]; [exact Hseen|].
  apply NoDup_app. split; [exact Hseen|]. split; [|apply NoDup_singleton].
  intros z Hz Hz'. apply list_elem_of_singleton in Hz'. subst z. contradiction.
Qed.

Lemma named_speaker_spec (o : option string) :
  named_speaker o = true <->
  exists name, o = Some name /\ name <> EmptyString /\ name <> "Unknown".
Proof.
  destruct o as [name|]; cbn [named_speaker].
  - split.
    + intros H. apply andb_true_iff in H. destruct H as [H1 H2].
      apply negb_true_iff, String.eqb_neq in H1.
      apply negb_true_iff, String.eqb_neq in H2. eauto.
    + intros (n & [= <-] & Hne & Hun). apply andb_true_iff.
      split; apply negb_true_iff, String.eqb_neq; assumption.
  - split; [discriminate|]. intros (n & [=] & _).
Qed.

Lemma label_of_attributed (segments : list Segment) (k : string) :
  k ∈ map (fun s => default EmptyString s)
        (List.filter named_speaker (map seg_speaker segments))
  <-> k <> EmptyString /\ k <> "Unknown" /\
      exists s, s ∈ segments /\ seg_speaker s = Some k.
Proof.
  rewrite list_elem_of_In, in_map_iff. split.
  - intros (o & Hk & Ho). apply filter_In in Ho. destruct Ho as [Ho Hnamed].
    apply in_map_iff in Ho. destruct Ho as (s & Hs & Hin).
    apply named_speaker_spec in Hnamed. destruct Hnamed as (name & -> & Hne & Hun).
    cbn in Hk. subst k. split; [exact Hne|]. split; [exact Hun|].
    exists s. split; [apply list_elem_of_In; exact Hin | exact Hs].
  - intros (Hne & Hun & s & Hin & Hs). exists (Some k). split; [reflexivity|].
    apply filter_In. split.
    + apply in_map_iff. exists s. split; [exact Hs | apply list_elem_of_In; exact Hin].
    + apply named_speaker_spec. eauto.
Qed.

(** X17. The speakers that [extractSpeakerInfo] lists are distinct, and
    they are exactly the names found on some segment: never the empty
    string, never ['Unknown']; [speakerCount] is their number. *)
Theorem speakers_are_the_distinct_names (segments : list Segment) (info : SpeakerInfo) :
  extractSpeakerInfo (Some segments) = Ok info ->
  NoDup (info_speakers info) /\
  info_speakerCount info = List.length (info_speakers info) /\
  forall k : string,
    k ∈ info_speakers info <->
    k <> EmptyString /\ k <> "Unknown" /\
    exists s, s ∈ segments /\ seg_speaker s = Some k.
Proof.
  unfold extractSpeakerInfo.
  destruct (fold_left group_segment segments (Ok ∅)) as [m|e]; [|discriminate].
  cbn [bind]. destruct (map_speaker_stat m _) as [stats|e]; [|discriminate].
  cbn [bind]. intros [= <-]. cbn [info_speakers info_speakerCount].
  split; [apply Set_add_fold_NoDup, NoDup_nil_2|]. split; [reflexivity|].
  intros k. unfold spread_Set. rewrite Set_add_fold_elem, <- label_of_attributed.
  set_solver.
Qed.

Lemma prototype_names_are_names (k : string) :
  k ∈ object_prototype_names -> named_speaker (Some k) = true.
Proof.
  unfold object_prototype_names. intros Hk.
  repeat (apply elem_of_cons in Hk; destruct Hk as [-> | Hk]; [reflexivity|]).
  apply elem_of_nil in Hk. contradiction.
Qed.

Lemma group_fold_throw (segments : list Segment) (e : JsError) :
  fold_left group_segment segments (Throw e) = Throw e.
Proof. induction segments as [|s segments IH]; [reflexivity | exact IH]. Qed.

Lemma segments_of_cons (k : string) (s : Segment) (segments : list Segment) :
  segments_of k (s :: segments)
  = if bool_decide (seg_speaker s = Some k) then s :: segments_of k segments
    else segments_of k segments.
Proof. reflexivity. Qed.

(** What one turn of the grouping does to the map. *)
Lemma group_segment_step (m : gmap string (list Segment)) (s : Segment) :
  (exists k, seg_speaker s = Some k /\ k ∈ object_prototype_names /\
             group_segment (Ok m) s
             = Throw (TypeError "speakerSegments[segment.speaker].push is not a function")) \/
  ((forall k, seg_speaker s = Some k -> k ∉ object_prototype_names) /\
   exists m1, group_segment (Ok m) s = Ok m1 /\
     forall k, m1 !! k =
               if named_speaker (Some k) && bool_decide (seg_speaker s = Some k)
               then Some (default [] (m !! k) ++ [s])%list
               else m !! k).
Proof.
  unfold group_segment. cbn [bind].
  destruct (seg_speaker s) as [name|] eqn:Hs.
  - destruct (named_speaker (Some name)) eqn:Hnamed.
    + destruct (decide (name ∈ object_prototype_names)) as [Hproto|Hfine].
      * left. exists name. auto.
      * right. split; [intros k [= <-]; exact Hfine|].
        eexists. split; [reflexivity|]. intros k.
        destruct (decide (name = k)) as [<-|Hne].
        -- rewrite Hnamed, bool_decide_eq_true_2 by reflexivity.
           cbn [andb]. apply lookup_insert_eq.
        -- rewrite lookup_insert_ne by exact Hne.
           rewrite (bool_decide_eq_false_2 (Some name = Some k)) by congruence.
           rewrite andb_false_r. reflexivity.
    + right. split.
      * intros k [= <-] Hproto. apply prototype_names_are_names in Hproto. congruence.
      * eexists. split; [reflexivity|]. intros k.
        destruct (decide (name = k)) as [<-|Hne].
        -- rewrite Hnamed. reflexivity.
        -- rewrite (bool_decide_eq_false_2 (Some name = Some k)) by congruence.
           rewrite andb_false_r. reflexivity.
  - right. split; [intros k [=]|]. eexists. split; [reflexivity|]. intros k.
    rewrite (bool_decide_eq_false_2 (None = Some k)) by discriminate.
    rewrite andb_false_r. reflexivity.
Qed.

Lemma group_fold_cases (segments : list Segment) (m : gmap string (list Segment)) :
  (Exists (fun s => exists k, seg_speaker s = Some k /\ k ∈ object_prototype_names) segments /\
   fold_left group_segment segments (Ok m)
   = Throw (TypeError "speakerSegments[segment.speaker].push is not a function")) \/
  (Forall (fun s => forall k, seg_speaker s = Some k -> k ∉ object_prototype_names) segments /\
   exists m', fold_left group_segment segments (Ok m) = Ok m' /\
     forall k, m' !! k =
               if named_speaker (Some k)
               then match segments_of k segments with
                    | [] => m !! k
                    | g => Some (default [] (m !! k) ++ g)%list
                    end
               else m !! k).
Proof.
  revert m. induction segments as [|s segments IH]; intros m.
  - right. split; [constructor|]. exists m. split; [reflexivity|].
    intros k. destruct (named_speaker (Some k)); reflexivity.
  - cbn [fold_left].
    destruct (group_segment_step m s) as [(k0 & Hs & Hproto & ->) | (Hfine & m1 & -> & Hm1)].
    + left. split; [left; eauto | apply group_fold_throw].
    + destruct (IH m1) as [[Hex Hthrow] | (Hall & m' & Hfold & Hm')].
      * left. split; [right; exact Hex | exact Hthrow].
      * right. split; [constructor; assumption|]. exists m'. split; [exact Hfold|].
        intros k. rewrite Hm', Hm1, segments_of_cons.
        destruct (named_speaker (Some k)); [|reflexivity]. cbn [andb].
        destruct (bool_decide (seg_speaker s = Some k)).
        -- destruct (segments_of k segments) as [|g0 g]; [reflexivity|].
           change (default [] (Some (default [] (m !! k) ++ [s])%list))
             with (default [] (m !! k) ++ [s])%list.
           rewrite <- app_assoc. reflexivity.
        -- reflexivity.
Qed.

Lemma segments_of_elem (k : string) (segments : list Segment) (s : Segment) :
  s ∈ segments_of k segments <-> s ∈ segments /\ seg_speaker s = Some k.
Proof.
  unfold segments_of. rewrite !list_elem_of_In, filter_In, bool_decide_eq_true. reflexivity.
Qed.

Lemma map_speaker_stat_ok (m : gmap string (list Segment)) (ks : list string) :
  (forall k, k ∈ ks -> is_Some (m !! k)) ->
  map_speaker_stat m ks
  = Ok (map (fun k =>
               let group := default [] (m !! k) in
               mkSpeakerStat k (List.length group)
                 (Math_min (map seg_start group)) (Math_max (map seg_end group))
                 (number_sub (Math_max (map seg_end group))
                             (Math_min (map seg_start group)))) ks).
Proof.
  induction ks as [|k ks IH]; intros Hks; [reflexivity|].
  cbn [map_speaker_stat map]. unfold speaker_stat at 1.
  destruct (Hks k) as [g Hg]; [left|]. rewrite Hg. cbn [bind default].
  rewrite IH by (intros k' Hk'; apply Hks; right; exact Hk'). reflexivity.
Qed.

(** How an [extractSpeakerInfo] that returns has come about. *)
Lemma extractSpeakerInfo_ok (segments : list Segment) (info : SpeakerInfo) :
  extractSpeakerInfo (Some segments) = Ok info ->
  let ks := spread_Set (map (fun s => default EmptyString s)
                            (List.filter named_speaker (map seg_speaker segments))) in
  Forall (fun s => forall k, seg_speaker s = Some k -> k ∉ object_prototype_names) segments /\
  info_speakers info = ks /\
  (forall k, info_speakerSegments info !! k
             = if decide (k ∈ ks) then Some (segments_of k segments) else None) /\
  info_speakerStats info
  = Some (map (fun k =>
                 let group := segments_of k segments in
                 mkSpeakerStat k (List.length group)
                   (Math_min (map seg_start group)) (Math_max (map seg_end group))
                   (number_sub (Math_max (map seg_end group))
                               (Math_min (map seg_start group)))) ks).
Proof.
  intros Hinfo ks. unfold extractSpeakerInfo in Hinfo. fold ks in Hinfo.
  destruct (group_fold_cases segments ∅) as [[_ Hthrow] | (Hall & m & Hfold & Hm)];
    [rewrite Hthrow in Hinfo; discriminate|].
  rewrite Hfold in Hinfo. cbn [bind] in Hinfo.
  assert (Hgroups : forall k, m !! k = if decide (k ∈ ks) then Some (segments_of k segments)
                                       else None).
  { intros k. rewrite Hm, lookup_empty. cbn [default app].
    destruct (decide (k ∈ ks)) as [Hin|Hout].
    - unfold ks, spread_Set in Hin. apply Set_add_fold_elem in Hin.
      destruct Hin as [Hin|Hin]; [apply elem_of_nil in Hin; contradiction|].
      apply label_of_attributed in Hin. destruct Hin as (Hne & Hun & s & Hs & Hk).
      rewrite (proj2 (named_speaker_spec (Some k))) by eauto.
      assert (Hsk : s ∈ segments_of k segments) by (apply segments_of_elem; auto).
      destruct (segments_of k segments); [apply elem_of_nil in Hsk; contradiction|].
      reflexivity.
    - destruct (named_speaker (Some k)) eqn:Hnamed; [|reflexivity].
      destruct (segments_of k segments) as [|s g] eqn:Hg; [reflexivity|].
      exfalso. apply Hout. unfold ks, spread_Set. apply Set_add_fold_elem. right.
      apply label_of_attributed. apply named_speaker_spec in Hnamed.
      destruct Hnamed as (n & [= <-] & Hne & Hun). split; [exact Hne|]. split; [exact Hun|].
      exists s. apply segments_of_elem. rewrite Hg. left. }
  rewrite map_speaker_stat_ok in Hinfo.
  2:{ intros k Hk. rewrite Hgroups. destruct (decide (k ∈ ks)); [eauto | contradiction]. }
  cbn [bind] in Hinfo. injection Hinfo as <-.
  cbn [info_speakers info_speakerSegments info_speakerStats].
  split; [exact Hall|]. split; [reflexivity|]. split; [exact Hgroups|].
  f_equal. apply map_ext_in. intros k Hk. apply list_elem_of_In in Hk.
  rewrite Hgroups. destruct (decide (k ∈ ks)); [reflexivity | contradiction].
Qed.

(** X18. [extractSpeakerInfo] throws exactly when a segment's speaker bears
    a name that every object inherits, such as ['constructor'] or
    ['toString']; in every other case it returns. *)
Theorem inherited_names_break_the_grouping (segments : list Segment) :
  (Exists (fun s => exists k, seg_speaker s = Some k /\ k ∈ object_prototype_names) segments ->
   extractSpeakerInfo (Some segments)
   = Throw (TypeError "speakerSegments[segment.speaker].push is not a function")) /\
  (Forall (fun s => forall k, seg_speaker s = Some k -> k ∉ object_prototype_names) segments ->
   exists info, extractSpeakerInfo (Some segments) = Ok info).
Proof.
  split.
  - intros Hex. unfold extractSpeakerInfo.
    destruct (group_fold_cases segments ∅) as [[_ ->] | (Hall & _)]; [reflexivity|].
    exfalso. rewrite Forall_forall in Hall. apply Exists_exists in Hex.
    destruct Hex as (s & Hs & k & Hk & Hproto). exact (Hall s Hs k Hk Hproto).
  - intros Hall.
    destruct (extractSpeakerInfo (Some segments)) as [info|e] eqn:Hinfo; [eauto|].
    exfalso. unfold extractSpeakerInfo in Hinfo.
    destruct (group_fold_cases segments ∅) as [[Hex _] | (_ & m & Hfold & Hm)].
    + rewrite Forall_forall in Hall. apply Exists_exists in Hex.
      destruct Hex as (s & Hs & k & Hk & Hproto). exact (Hall s Hs k Hk Hproto).
    + rewrite Hfold in Hinfo. cbn [bind] in Hinfo.
      rewrite map_speaker_stat_ok in Hinfo; [discriminate|].
      intros k Hk. rewrite Hm, lookup_empty. cbn [default app].
      unfold spread_Set in Hk. apply Set_add_fold_elem in Hk.
      destruct Hk as [Hk|Hk]; [apply elem_of_nil in Hk; contradiction|].
      apply label_of_attributed in Hk. destruct Hk as (Hne & Hun & s & Hs & Hsk).
      rewrite (proj2 (named_speaker_spec (Some k))) by eauto.
      assert (Hin : s ∈ segments_of k segments) by (apply segments_of_elem; auto).
      destruct (segments_of k segments); [apply elem_of_nil in Hin; contradiction|].
      eauto.
Qed.

(** X19. In what [extractSpeakerInfo] returns, [speakerSegments] has one
    key per listed speaker and no other, and under each name the segments
    of that speaker, all of them and in their order. *)
Theorem groups_are_the_speakers_segments (segments : list Segment) (info : SpeakerInfo) :
  extractSpeakerInfo (Some segments) = Ok info ->
  forall k : string,
    info_speakerSegments info !! k
    = if decide (k ∈ info_speakers info) then Some (segments_of k segments) else None.
Proof.
  intros Hinfo k.
  destruct (extractSpeakerInfo_ok segments info Hinfo) as (_ & -> & Hgroups & _).
  apply Hgroups.
Qed.

Lemma fold_min_spec (rest : list Q) (x : Q) :
  In (fold_left Qmin rest x) (x :: rest) /\
  forall y, In y (x :: rest) -> (fold_left Qmin rest x <= y)%Q.
Proof.
  revert x. induction rest as [|z rest IH]; intros x; cbn [fold_left].
  - split; [left; reflexivity|]. intros y [<- | []]. apply Qle_refl.
  - destruct (IH (Qmin x z)) as [Hin Hle]. split.
    + destruct Hin as [Hhead | Hrest]; [|right; right; exact Hrest].
      rewrite <- Hhead. unfold Qmin, GenericMinMax.gmin.
      destruct (x ?= z)%Q; [left | left | right; left]; reflexivity.
    + intros y [<- | [<- | Hy]].
      * eapply Qle_trans; [apply Hle; left; reflexivity | apply Q.le_min_l].
      * eapply Qle_trans; [apply Hle; left; reflexivity | apply Q.le_min_r].
      * apply Hle. right. exact Hy.
Qed.

Lemma fold_max_spec (rest : list Q) (x : Q) :
  In (fold_left Qmax rest x) (x :: rest) /\
  forall y, In y (x :: rest) -> (y <= fold_left Qmax rest x)%Q.
Proof.
  revert x. induction rest as [|z rest IH]; intros x; cbn [fold_left].
  - split; [left; reflexivity|]. intros y [<- | []]. apply Qle_refl.
  - destruct (IH (Qmax x z)) as [Hin Hle]. split.
    + destruct Hin as [Hhead | Hrest]; [|right; right; exact Hrest].
      rewrite <- Hhead. unfold Qmax, GenericMinMax.gmax.
      destruct (x ?= z)%Q; [left | right; left | left]; reflexivity.
    + intros y [<- | [<- | Hy]].
      * eapply Qle_trans; [apply Q.le_max_l | apply Hle; left; reflexivity].
      * eapply Qle_trans; [apply Q.le_max_r | apply Hle; left; reflexivity].
      * apply Hle. right. exact Hy.
Qed.

Lemma listed_speaker_has_segments (segments : list Segment) (k : string) :
  k ∈ spread_Set (map (fun s => default EmptyString s)
                      (List.filter named_speaker (map seg_speaker segments))) ->
  named_speaker (Some k) = true /\ segments_of k segments <> [].
Proof.
  intros Hk. unfold spread_Set in Hk. apply Set_add_fold_elem in Hk.
  destruct Hk as [Hk|Hk]; [apply elem_of_nil in Hk; contradiction|].
  apply label_of_attributed in Hk. destruct Hk as (Hne & Hun & s & Hs & Hsk).
  split; [apply named_speaker_spec; eauto|].
  assert (Hin : s ∈ segments_of k segments) by (apply segments_of_elem; auto).
  intros Hnil. rewrite Hnil in Hin. apply elem_of_nil in Hin. contradiction.
Qed.

(** X20. In what [extractSpeakerInfo] returns there is one statistic per
    listed speaker, in their order. Its [wordCount] is the number of that
    speaker's segments; its [startTime] is the start of one of them and not
    after the start of any; its [endTime] is the end of one of them and not
    before the end of any; its [duration] is their difference, never
    infinite, and not negative when no segment ends before it starts. *)
Theorem stats_span_the_segments (segments : list Segment) (info : SpeakerInfo) :
  extractSpeakerInfo (Some segments) = Ok info ->
  exists stats : list SpeakerStat,
    info_speakerStats info = Some stats /\
    map stat_speaker stats = info_speakers info /\
    Forall (fun stat =>
              let group := segments_of (stat_speaker stat) segments in
              stat_wordCount stat = List.length group /\
              exists lo hi : Q,
                stat_startTime stat = Finite lo /\
                stat_endTime stat = Finite hi /\
                stat_duration stat = Finite (hi - lo) /\
                In lo (map seg_start group) /\
                In hi (map seg_end group) /\
                (forall s, s ∈ group -> (lo <= seg_start s)%Q /\ (seg_end s <= hi)%Q) /\
                (Forall (fun s => (seg_start s <= seg_end s)%Q) group -> (0 <= hi - lo)%Q))
           stats.
Proof.
  intros Hinfo.
  destruct (extractSpeakerInfo_ok segments info Hinfo) as (_ & Hks & _ & Hstats).
  eexists. split; [exact Hstats|]. split.
  { rewrite map_map. cbn [stat_speaker]. rewrite map_id. symmetry. exact Hks. }
  apply Forall_map, Forall_forall. intros k Hk. cbn [stat_speaker stat_wordCount
    stat_startTime stat_endTime stat_duration].
  destruct (listed_speaker_has_segments segments k Hk) as [_ Hnonempty].
  split; [reflexivity|].
  destruct (segments_of k segments) as [|s0 g] eqn:Hg; [contradiction|].
  cbn [map Math_min Math_max number_sub].
  destruct (fold_min_spec (map seg_start g) (seg_start s0)) as [Hlo_in Hlo].
  destruct (fold_max_spec (map seg_end g) (seg_end s0)) as [Hhi_in Hhi].
  eexists _, _. split; [reflexivity|]. split; [reflexivity|]. split; [reflexivity|].
  split; [exact Hlo_in|]. split; [exact Hhi_in|]. split.
  - intros s Hs. apply list_elem_of_In in Hs. split.
    + apply Hlo. change (In (seg_start s) (map seg_start (s0 :: g))). apply in_map, Hs.
    + apply Hhi. change (In (seg_end s) (map seg_end (s0 :: g))). apply in_map, Hs.
  - intros Hordered.
    change (In (fold_left Qmin (map seg_start g) (seg_start s0)) (map seg_start (s0 :: g)))
      in Hlo_in.
    apply in_map_iff in Hlo_in. destruct Hlo_in as (s & Hstart & Hs).
    rewrite Forall_forall in Hordered.
    pose proof (Hordered s (proj2 (list_elem_of_In _ _) Hs)) as Hs_ordered.
    assert (Hend : (seg_end s <= fold_left Qmax (map seg_end g) (seg_end s0))%Q).
    { apply Hhi. change (In (seg_end s) (map seg_end (s0 :: g))). apply in_map, Hs. }
    rewrite <- Hstart. lra.
Qed.

Lemma list_sum_map_add (A : Type) (f g : A -> nat) (l : list A) :
  list_sum (map (fun x => f x + g x)%nat l) = (list_sum (map f l) + list_sum (map g l))%nat.
Proof.
  unfold list_sum. induction l as [|x l IH]; cbn [map fold_right]; [reflexivity|].
  rewrite IH. lia.
Qed.

Lemma list_sum_cons (x : nat) (l : list nat) : list_sum (x :: l) = (x + list_sum l)%nat.
Proof. reflexivity. Qed.

Lemma count_speaker_once (ks : list string) (o : option string) :
  NoDup ks ->
  list_sum (map (fun k => if bool_decide (o = Some k) then 1 else 0)%nat ks)
  = match o with
    | Some name => if decide (name ∈ ks) then 1%nat else 0%nat
    | None => 0%nat
    end.
Proof.
  induction 1 as [|k ks Hout _ IH]; cbn [map]; [|rewrite list_sum_cons].
  - destruct o as [name|]; [|reflexivity].
    destruct (decide (name ∈ [])) as [Hin|]; [apply elem_of_nil in Hin; contradiction|].
    reflexivity.
  - rewrite IH. destruct o as [name|].
    + destruct (decide (name = k)) as [->|Hne].
      * rewrite bool_decide_eq_true_2 by reflexivity.
        destruct (decide (k ∈ ks)); [contradiction|].
        destruct (decide (k ∈ k :: ks)) as [|Hno]; [reflexivity|].
        exfalso. apply Hno. left.
      * rewrite bool_decide_eq_false_2 by congruence.
        destruct (decide (name ∈ ks)) as [Hin|Hno];
          destruct (decide (name ∈ k :: ks)) as [Hin'|Hno']; try reflexivity.
        -- exfalso. apply Hno'. right. exact Hin.
        -- exfalso. apply elem_of_cons in Hin'. destruct Hin' as [->|Hin']; contradiction.
    + rewrite bool_decide_eq_false_2 by discriminate. reflexivity.
Qed.

Lemma group_sizes_add_up (ks : list string) (segments : list Segment) :
  NoDup ks ->
  (forall k, k ∈ ks -> named_speaker (Some k) = true) ->
  (forall s k, s ∈ segments -> seg_speaker s = Some k -> named_speaker (Some k) = true ->
               k ∈ ks) ->
  list_sum (map (fun k => List.length (segments_of k segments)) ks)
  = List.length (List.filter attributed segments).
Proof.
  intros Hnodup Hnamed. induction segments as [|s segments IH]; intros Hcover.
  - cbn [List.filter List.length]. induction ks as [|k ks IHk]; [reflexivity|].
    cbn [map]. rewrite list_sum_cons. cbn [segments_of List.filter List.length plus].
    apply IHk.
    + apply NoDup_cons in Hnodup. tauto.
    + intros k' Hk'. apply Hnamed. right. exact Hk'.
    + intros s k' Hs. apply elem_of_nil in Hs. contradiction.
  - assert (Hsplit : map (fun k => List.length (segments_of k (s :: segments))) ks
                     = map (fun k => (if bool_decide (seg_speaker s = Some k) then 1 else 0)
                                     + List.length (segments_of k segments))%nat ks).
    { apply map_ext. intros k. rewrite segments_of_cons.
      destruct (bool_decide (seg_speaker s = Some k)); reflexivity. }
    rewrite Hsplit, list_sum_map_add, (count_speaker_once ks (seg_speaker s) Hnodup), IH.
    2:{ intros s' k Hs'. apply Hcover. right. exact Hs'. }
    cbn [List.filter]. unfold attributed at 2.
    destruct (seg_speaker s) as [name|] eqn:Hs.
    + destruct (decide (name ∈ ks)) as [Hin|Hout].
      * rewrite (Hnamed name Hin). reflexivity.
      * destruct (named_speaker (Some name)) eqn:Hn; [|reflexivity].
        exfalso. apply Hout. apply (Hcover s name); [left | exact Hs | exact Hn].
    + reflexivity.
Qed.

(** X21. The word counts of the listed speakers add up to the number of
    segments that carry a name: each such segment is counted once, for one
    speaker. *)
Theorem word_counts_add_up (segments : list Segment) (info : SpeakerInfo) :
  extractSpeakerInfo (Some segments) = Ok info ->
  exists stats : list SpeakerStat,
    info_speakerStats info = Some stats /\
    list_sum (map stat_wordCount stats) = List.length (List.filter attributed segments).
Proof.
  intros Hinfo.
  destruct (extractSpeakerInfo_ok segments info Hinfo) as (_ & _ & _ & Hstats).
  eexists. split; [exact Hstats|].
  rewrite map_map. cbn [stat_wordCount].
  apply group_sizes_add_up.
  - apply Set_add_fold_NoDup, NoDup_nil_2.
  - intros k Hk. apply (listed_speaker_has_segments segments k Hk).
  - intros s k Hs Hk Hnamed. unfold spread_Set. apply Set_add_fold_elem. right.
    apply label_of_attributed. apply named_speaker_spec in Hnamed.
    destruct Hnamed as (n & [= <-] & Hne & Hun). eauto.
Qed.

(** * Closed instances of the further properties *)

Lemma markdown_mode_always_resolves_witness :
  exists v : JsVal,
    fst (python_transcribeAudio (rt := sample_runtime) (pythonService bare_service)
           padded_markdown_env (ABuffer []) english_markdown empty_state) = Resolved v /\
    get v "text" = Ok (JStr "# Hej").
Proof.
  destruct (markdown_mode_always_resolves (rt := sample_runtime) (pythonService bare_service)
              padded_markdown_env (ABuffer []) english_markdown empty_state _ _
              "  # Hej  " EmptyString eq_refl eq_refl eq_refl)
    as (v & text & Hrun & Htext & Htrim & _).
  exists v. split; [exact Hrun|]. rewrite Htext, Htrim. reflexivity.
Defined.

Lemma failed_unlink_is_only_warned_witness :
  "/srv/app/temp_audio_transa/audio_1700000000000_k3x9q2m1z.wav"
  ∈ files (snd (python_transcribeAudio (rt := sample_runtime) (pythonService bare_service)
                  (with_unlink_error "EPERM" boom_env) (ABuffer []) no_options empty_state)).
Proof.
  refine (proj1 (proj2 (failed_unlink_is_only_warned (rt := sample_runtime)
                          (pythonService bare_service) boom_env [] no_options empty_state
                          "EPERM" eq_refl _ _))).
  - intros cmd args e. discriminate.
  - intros cmd args. discriminate.
Defined.

Lemma python_removes_its_temp_path_witness :
  files (snd (python_transcribeAudio (rt := sample_runtime) (pythonService bare_service)
                boom_env (ABuffer []) no_options crowded_state))
  = files crowded_state
    ∖ {[ "/srv/app/temp_audio_transa/audio_1700000000000_k3x9q2m1z.wav" ]}.
Proof.
  refine (python_removes_its_temp_path (rt := sample_runtime) (pythonService bare_service)
            boom_env [] no_options crowded_state eq_refl eq_refl _ _).
  - intros cmd args e. discriminate.
  - intros cmd args. discriminate.
Defined.

Lemma remote_cleans_up_after_an_answer_witness :
  files (snd (transcribeWithOpenAI (rt := sample_runtime) keyed_service answering_api
                (ABuffer []) no_options empty_state))
  = files empty_state ∖ {[ "/srv/app/temp/temp_audio_1700000000250.wav" ]}.
Proof.
  exact (remote_cleans_up_after_an_answer (rt := sample_runtime) keyed_service answering_api
           [] no_options empty_state _ eq_refl eq_refl eq_refl eq_refl).
Defined.



Lemma calls_that_never_settle_witness :
  fst (transcribeAudio (rt := sample_runtime) bare_service hanging_call (ABuffer [])
         no_options empty_state) = Pending /\
  exists e : JsError,
    fst (transcribeAudio (rt := sample_runtime) mock_only_service boom_call ANull
           no_options empty_state) = Unsettled e.
Proof.
  split.
  - apply (proj1 (proj2 (calls_that_never_settle (rt := sample_runtime) bare_service
                           hanging_call (ABuffer []) no_options empty_state))).
    split; [reflexivity|]. split; [eexists; reflexivity|]. split; reflexivity.
  - apply (proj1 (calls_that_never_settle (rt := sample_runtime) mock_only_service
                    boom_call ANull no_options empty_state)).
    split; [discriminate|]. split; reflexivity.
Defined.

Lemma other_files_are_left_alone_witness :
  "/srv/app/temp_audio_transa/keep.wav"
  ∈ files (snd (transcribeAudio (rt := sample_runtime) keyed_service boom_call (ABuffer [])
                  no_options crowded_state)).
Proof.
  apply (other_files_are_left_alone (rt := sample_runtime) keyed_service boom_call
           (ABuffer []) no_options crowded_state "/srv/app/temp_audio_transa/keep.wav").
  - vm_compute. discriminate.
  - vm_compute. discriminate.
  - eapply (bool_decide_eq_true_1 _). vm_compute. reflexivity.
Defined.

Lemma python_batch_reports_every_buffer_witness :
  exists results : list JsVal,
    fst (python_transcribeBatch (rt := sample_runtime) (pythonService bare_service)
           batch_envs [ABuffer []; ABuffer []] english_markdown empty_state)
    = Resolved (JArr results) /\
    results !! 0%nat
    = Some (JObj [("success", JBool false);
                  ("error", JStr "Python script failed with code 1: boom")]) /\
    results !! 1%nat
    = Some (JObj [("success", JBool true); ("result", markdown_result (JStr "Hej."))]).
Proof.
  destruct (python_batch_reports_every_buffer (rt := sample_runtime)
              (pythonService bare_service) batch_envs [ABuffer []; ABuffer []]
              english_markdown empty_state) as (results & Hrun & _ & Hentries).
  { intros [|k] a _; discriminate. }
  exists results. split; [exact Hrun|]. split.
  - apply (proj2 (Hentries 0%nat (ABuffer []) empty_state eq_refl)
             (Error "Python script failed with code 1: boom")).
    vm_compute. reflexivity.
  - apply (proj1 (Hentries 1%nat (ABuffer []) empty_state eq_refl)
             (markdown_result (JStr "Hej."))).
    vm_compute. reflexivity.
Defined.

Lemma batch_reports_every_buffer_witness :
  exists results : list JsVal,
    fst (transcribeBatch (rt := sample_runtime) bare_service batch_calls
           [ABuffer []; ABuffer []] english_markdown empty_state)
    = Resolved (JArr results) /\
    List.length results = 2%nat /\
    results !! 0%nat
    = Some (JObj [("success", JBool false);
                  ("error",
                   JStr "Transcription failed: Python script failed with code 1: boom")]).
Proof.
  destruct (batch_reports_every_buffer (rt := sample_runtime) bare_service batch_calls
              [ABuffer []; ABuffer []] english_markdown empty_state)
    as (results & Hrun & Hlen & Hentries).
  { intros _ [|k] a _; discriminate. }
  { left. reflexivity. }
  exists results. split; [exact Hrun|]. split; [exact Hlen|].
  apply (proj2 (Hentries 0%nat (ABuffer []) empty_state eq_refl)
           (Error "Transcription failed: Python script failed with code 1: boom")).
  vm_compute. reflexivity.
Defined.

Lemma confidence_closed_form_witness :
  exists c : Q, calculateConfidence (JStr sample_text) = Ok c /\ (c == 1)%Q.
Proof.
  destruct (confidence_closed_form sample_text) as (c & Hc & _ & _ & Hone);
    [discriminate|].
  exists c. split; [exact Hc|]. apply Hone. split; vm_compute; lia.
Defined.

Lemma mock_text_is_canned_witness :
  exists (v : JsVal) (text : string),
    snd (getMockTranscription sample_mock_env (ABuffer []) no_options) = Resolved v /\
    get v "text" = Ok (JStr text) /\
    In text mockResponses.
Proof.
  apply (mock_text_is_canned sample_mock_env [] no_options). simpl. lra.
Defined.

Lemma isConfigured_agrees_with_status_witness :
  exists v : JsVal,
    getServiceStatus bare_service (mkProcessEnv None None) no_python_env = Settled (Ok v) /\
    get v "overallConfigured" = Ok (JBool false).
Proof.
  exact (proj1 (isConfigured_agrees_with_status bare_service (mkProcessEnv None None)
                  no_python_env) false eq_refl).
Defined.

Lemma probe_rejects_missing_modules_witness :
  isAvailable missing_module_env = Settled (Ok false) /\
  isConfigured bare_service (mkProcessEnv None None) missing_module_env = Settled (Ok false).
Proof.
  destruct (probe_rejects_missing_modules bare_service (mkProcessEnv None None)
              missing_module_env (Some 1%Z) EmptyString "Traceback: "
              ": No module named 'whisper_timestamped'"
              (or_introl (fun _ _ => eq_refl))) as [Hav Hconf].
  split; [exact Hav | exact (Hconf eq_refl)].
Defined.

Lemma test_segments_info :
  { info : SpeakerInfo | extractSpeakerInfo (Some test_segments) = Ok info }.
Proof. eexists. vm_compute. reflexivity. Defined.

Lemma speakers_are_the_distinct_names_witness :
  NoDup (info_speakers (proj1_sig test_segments_info)) /\
  info_speakerCount (proj1_sig test_segments_info)
  = List.length (info_speakers (proj1_sig test_segments_info)).
Proof.
  destruct (speakers_are_the_distinct_names test_segments (proj1_sig test_segments_info)
              (proj2_sig test_segments_info)) as (Hnodup & Hcount & _).
  split; assumption.
Defined.

Lemma inherited_names_break_the_grouping_witness :
  extractSpeakerInfo (Some inherited_name_segments)
  = Throw (TypeError "speakerSegments[segment.speaker].push is not a function").
Proof.
  apply (proj1 (inherited_names_break_the_grouping inherited_name_segments)).
  right. left. exists "constructor". split; [reflexivity|].
  apply elem_of_cons. left. reflexivity.
Defined.

Lemma groups_are_the_speakers_segments_witness :
  info_speakerSegments (proj1_sig test_segments_info) !! "B"
  = Some [ mkSegment 2.5 3.5 "ett" (Some "B"); mkSegment 3.5 4.5 "test" (Some "B") ].
Proof.
  rewrite (groups_are_the_speakers_segments test_segments (proj1_sig test_segments_info)
             (proj2_sig test_segments_info) "B").
  vm_compute. reflexivity.
Defined.

Lemma stats_span_the_segments_witness :
  exists stats : list SpeakerStat,
    info_speakerStats (proj1_sig test_segments_info) = Some stats /\
    map stat_speaker stats = info_speakers (proj1_sig test_segments_info).
Proof.
  destruct (stats_span_the_segments test_segments (proj1_sig test_segments_info)
              (proj2_sig test_segments_info)) as (stats & Hstats & Hnames & _).
  exists stats. split; assumption.
Defined.

Lemma word_counts_add_up_witness :
  exists stats : list SpeakerStat,
    info_speakerStats (proj1_sig test_segments_info) = Some stats /\
    list_sum (map stat_wordCount stats) = 5%nat.
Proof.
  destruct (word_counts_add_up test_segments (proj1_sig test_segments_info)
              (proj2_sig test_segments_info)) as (stats & Hstats & Hsum).
  exists stats. split; [exact Hstats|]. rewrite Hsum. reflexivity.
Defined.

Lemma directory_is_left_as_found_witness :
  files (snd (transcribeAudio (rt := sample_runtime) keyed_service fallback_call (ABuffer [])
                no_options empty_state))
  = files empty_state.
Proof.
  apply (directory_is_left_as_found (rt := sample_runtime) keyed_service fallback_call
           (ABuffer []) no_options empty_state eq_refl).
  - intros failure. discriminate.
  - intros failure. discriminate.
  - reflexivity.
  - intros cmd args e. discriminate.
  - intros cmd args. discriminate.
  - intros request. eexists. reflexivity.
  - reflexivity.
  - eapply (bool_decide_eq_false_1 _). vm_compute. reflexivity.
  - eapply (bool_decide_eq_false_1 _). vm_compute. reflexivity.
Defined.

(** ** The names of the temporary files *)

Lemma string_of_uint_free_of_underscore (d : Decimal.uint) :
  free_of "_" (NilEmpty.string_of_uint d).
Proof.
  unfold free_of. induction d as [|d IH|d IH|d IH|d IH|d IH|d IH|d IH|d IH|d IH|d IH];
    cbn [NilEmpty.string_of_uint list_ascii_of_string In];
    [tauto | intros [Hc | Hin]; [discriminate | exact (IH Hin)] ..].
Qed.

Lemma show_Z_free_of_underscore (z : Z) : free_of "_" (show_Z z).
Proof.
  unfold show_Z, NilEmpty.string_of_int.
  destruct (Z.to_int z) as [d|d].
  - apply string_of_uint_free_of_underscore.
  - unfold free_of. cbn [list_ascii_of_string In].
    intros [Hc | Hin]; [discriminate | exact (string_of_uint_free_of_underscore d Hin)].
Qed.

Lemma show_Z_inj (a b : Z) : show_Z a = show_Z b -> a = b.
Proof.
  unfold show_Z. intros Heq. apply DecimalZ.to_int_inj.
  assert (Hsome : Some (Z.to_int a) = Some (Z.to_int b))
    by (rewrite <- !NilEmpty.isi, Heq; reflexivity).
  injection Hsome as Hsome. exact Hsome.
Qed.

Lemma append_inv_head (p s t : string) : p ++ s = p ++ t -> s = t.
Proof.
  induction p as [|c p IH]; [trivial|].
  change (String c (p ++ s) = String c (p ++ t) -> s = t). intros [= Heq]. exact (IH Heq).
Qed.

Lemma split_at_first (c : ascii) (a a' r r' : string) :
  free_of c a -> free_of c a' ->
  a ++ String c r = a' ++ String c r' -> a = a' /\ r = r'.
Proof.
  unfold free_of. revert a'. induction a as [|x a IH]; intros [|x' a'] Ha Ha'.
  - intros [= ->]. split; reflexivity.
  - change (String c r = String x' (a' ++ String c r') -> EmptyString = String x' a' /\ r = r').
    intros [= -> _]. exfalso. apply Ha'. left. reflexivity.
  - change (String x (a ++ String c r) = String c r' -> String x a = EmptyString /\ r = r').
    intros [= -> _]. exfalso. apply Ha. left. reflexivity.
  - change (String x (a ++ String c r) = String x' (a' ++ String c r')
            -> String x a = String x' a' /\ r = r').
    intros [= -> Heq].
    destruct (IH a') as [-> ->]; [| |exact Heq|split; reflexivity].
    + intros Hin. apply Ha. right. exact Hin.
    + intros Hin. apply Ha'. right. exact Hin.
Qed.

Lemma list_of_append (s t : string) :
  list_ascii_of_string (s ++ t) = (list_ascii_of_string s ++ list_ascii_of_string t)%list.
Proof.
  induction s as [|c s IH]; [reflexivity|].
  change (c :: list_ascii_of_string (s ++ t)
          = c :: (list_ascii_of_string s ++ list_ascii_of_string t)%list).
  rewrite IH. reflexivity.
Qed.

Lemma append_inv_tail (s s' t : string) : s ++ t = s' ++ t -> s = s'.
Proof.
  intros Heq. apply (f_equal list_ascii_of_string) in Heq.
  rewrite !list_of_append in Heq. apply app_inv_tail in Heq.
  rewrite <- (string_of_list_ascii_of_string s), <- (string_of_list_ascii_of_string s'), Heq.
  reflexivity.
Qed.

(** X23. Two calls of the subprocess strategy write to the same path only
    if they drew the same timestamp and the same random suffix, the suffix
    being free of underscores as the base-36 digits are. *)
Theorem temp_paths_collide_only_on_equal_draws (this : PythonTranscriptionService)
    (env env' : SubprocessEnv) :
  free_of "_" (random_suffix env) ->
  free_of "_" (random_suffix env') ->
  python_temp_path this env = python_temp_path this env' ->
  now env = now env' /\ random_suffix env = random_suffix env'.
Proof.
  intros Hfree Hfree' Heq. unfold python_temp_path, path_join in Heq.
  apply append_inv_head in Heq. apply append_inv_head in Heq.
  apply (append_inv_head "audio_") in Heq.
  destruct (split_at_first "_" (show_Z (now env)) (show_Z (now env'))
              (random_suffix env ++ ".wav") (random_suffix env' ++ ".wav")
              (show_Z_free_of_underscore _) (show_Z_free_of_underscore _) Heq)
    as [Hnow Hsuffix].
  split; [exact (show_Z_inj _ _ Hnow) | exact (append_inv_tail _ _ _ Hsuffix)].
Qed.

(** ** A write that fails half-way *)

Section LeftBehind.

Context {rt : Runtime}.

(** The two strategies of a service built by the constructor write to
    different directories. *)
Lemma temp_paths_differ (penv : ProcessEnv) (env : SubprocessEnv) (renv : RemoteEnv) :
  python_temp_path (pythonService (newTranscriptionService penv)) env
  <> remote_temp_path renv.
Proof.
  unfold python_temp_path, remote_temp_path, newTranscriptionService,
    newPythonTranscriptionService, path_join.
  cbn [pythonService tempDir]. intros Heq.
  apply (f_equal list_ascii_of_string) in Heq.
  rewrite !list_of_append in Heq. rewrite <- !app_assoc in Heq.
  apply app_inv_head in Heq. discriminate Heq.
Qed.

(** X27. When the write of the subprocess strategy fails after it has
    created its file (a disk that fills up), a call to a service built by
    the constructor leaves that file behind, whatever happens next: the
    strategy rejects before it spawns anything, nothing on that path
    removes the file, and the remote strategy, if it runs, touches another
    directory. Without an API key the call fails with the error of the
    write. *)
Theorem failed_write_leaves_what_it_created (penv : ProcessEnv) (env : CallEnv)
    (bytes : list Byte.byte) (options : Options) (st : State)
    (failure : WriteFailure string) :
  let this := newTranscriptionService penv in
  writeFile_error (sub_env env) = Some failure ->
  file_created failure = true ->
  let run := transcribeAudio this env (ABuffer bytes) options st in
  let complaint := "Failed to save audio buffer: " ++ write_error failure in
  python_temp_path (pythonService this) (sub_env env) ∈ files (snd run) /\
  (truthy_string (OPENAI_API_KEY penv) = false ->
   fst run = Rejected (Error ("Transcription failed: " ++ complaint)) /\
   console (snd run)
   = (console st
      ++ [ (LWarn, ["⚠️ Python pipeline failed, falling back to OpenAI:"; complaint]);
           (LError, ["Transcription error:"; complaint]) ])%list).
Proof.
  intros this Hwrite Hcreated run complaint.
  set (p := python_temp_path (pythonService this) (sub_env env)).
  set (e_py := Error complaint).
  assert (Hpy : python_transcribeAudio (pythonService this) (sub_env env) (ABuffer bytes)
                  options st = (Rejected e_py, create_file p st)).
  { unfold python_transcribeAudio, saveAudioBuffer. rewrite Hwrite, Hcreated. reflexivity. }
  assert (Hattempt :
    p ∈ files (snd (transcribeAudio_attempt this env (ABuffer bytes) options st)) /\
    (truthy_string (OPENAI_API_KEY penv) = false ->
     transcribeAudio_attempt this env (ABuffer bytes) options st
     = (Rejected e_py,
        console_warn ["⚠️ Python pipeline failed, falling back to OpenAI:"; message e_py]
          (create_file p st)))).
  { unfold transcribeAudio_attempt.
    change (preferredService this) with "python".
    change (useOpenAI this) with (truthy_string (OPENAI_API_KEY penv)).
    cbn [String.eqb Ascii.eqb Bool.eqb]. rewrite Hpy.
    destruct (truthy_string (OPENAI_API_KEY penv)).
    - split; [|discriminate].
      apply openai_files_frame; [apply temp_paths_differ|].
      cbn [files console_warn create_file]. set_solver.
    - split; [cbn [snd files console_warn create_file]; set_solver | reflexivity]. }
  destruct Hattempt as [Hin Hnokey]. unfold run, transcribeAudio. split.
  - destruct (transcribeAudio_attempt this env (ABuffer bytes) options st) as [[v|e|e|] s];
      exact Hin.
  - intros Hkey. rewrite (Hnokey Hkey).
    cbn [fst snd console console_error console_warn create_file message e_py Error].
    split; [reflexivity|]. rewrite <- app_assoc. reflexivity.
Qed.

End LeftBehind.

Lemma failed_write_leaves_what_it_created_witness :
  "/srv/app/temp_audio_transa/audio_1700000000000_k3x9q2m1z.wav"
  ∈ files (snd (transcribeAudio (rt := sample_runtime) keyed_service
                  (mkCallEnv full_disk_env answering_api sample_mock_env) (ABuffer [])
                  no_options empty_state)).
Proof.
  exact (proj1 (failed_write_leaves_what_it_created (rt := sample_runtime)
                  (mkProcessEnv (Some "sk-test") None)
                  (mkCallEnv full_disk_env answering_api sample_mock_env) [] no_options
                  empty_state _ eq_refl eq_refl)).
Defined.

Lemma temp_paths_collide_only_on_equal_draws_witness :
  python_temp_path (pythonService bare_service) boom_env
  <> python_temp_path (pythonService bare_service) later_env.
Proof.
  intros Heq.
  assert (Hfree : free_of "_" "k3x9q2m1z").
  { unfold free_of. cbn. intros H.
    repeat (destruct H as [H|H]; [discriminate|]). exact H. }
  destruct (temp_paths_collide_only_on_equal_draws (pythonService bare_service) boom_env
              later_env Hfree Hfree Heq) as [Hnow _].
  discriminate Hnow.
Defined.

Lemma throwing_spawn_leaves_the_file_witness :
  "/srv/app/temp_audio_transa/audio_1700000000000_k3x9q2m1z.wav"
  ∈ files (snd (python_transcribeAudio (rt := sample_runtime) (pythonService bare_service)
                  refusing_spawn_env (ABuffer []) no_options empty_state)).
Proof.
  exact (proj1 (proj2 (throwing_spawn_leaves_the_file (rt := sample_runtime)
                         (pythonService bare_service) refusing_spawn_env [] no_options
                         empty_state _ eq_refl eq_refl))).
Defined.

Lemma null_buffer_is_rejected_witness :
  files (snd (transcribeAudio (rt := sample_runtime) keyed_service fallback_call ANull
                no_options crowded_state))
  = files crowded_state.
Proof.
  exact (proj2 (null_buffer_is_rejected (rt := sample_runtime) keyed_service fallback_call
                  no_options crowded_state eq_refl)).
Defined.

Lemma failed_spawn_runs_both_listeners_witness :
  fst (python_transcribeAudio (rt := sample_runtime) (pythonService bare_service)
         raced_env (ABuffer []) no_options empty_state)
  = Rejected (Error "Python script failed with code -2: ") /\
  fst (python_transcribeAudio (rt := sample_runtime) (pythonService bare_service)
         no_python_env (ABuffer []) no_options empty_state)
  = Rejected (Error "Failed to start Python process: spawn python3 ENOENT") /\
  last (python_afterwards (rt := sample_runtime) (pythonService bare_service)
          no_python_env (ABuffer []) no_options empty_state)
  = Some (LError, ["Python script error:"; EmptyString]).
Proof.
  split; [|split].
  - exact (proj1 (failed_spawn_runs_both_listeners (rt := sample_runtime)
                    (pythonService bare_service) raced_env [] no_options empty_state
                    _ _ _ _ eq_refl eq_refl ltac:(discriminate))).
  - exact (proj1 (failed_spawn_runs_both_listeners (rt := sample_runtime)
                    (pythonService bare_service) no_python_env [] no_options empty_state
                    _ _ _ _ eq_refl eq_refl ltac:(discriminate))).
  - exact (proj2 (proj2 (failed_spawn_runs_both_listeners (rt := sample_runtime)
                           (pythonService bare_service) no_python_env [] no_options
                           empty_state _ _ _ _ eq_refl eq_refl ltac:(discriminate)))).
Defined.
